(** * Lease arbitration of the node-healthcheck operator

    A shallow embedding of [controllers/resources/lease.go]: the duration
    policy ([getTimeoutForRemediation], [getLeaseDurationForRemediation],
    [getLeaseDurationForRemediations]), the overdue detector
    ([calcLeaseExpiration], [isLeaseOverdue]) and the two operations of the
    lease manager ([ObtainNodeLease], [ManageLease]).

    The Kubernetes client, the lease manager of medik8s/common, the clock
    and the logger are collaborators of the code: calls to them are the
    nodes of a small interaction tree ([Prog]), which is run against any
    implementation of their interface ([Cluster]). *)

From Stdlib Require Import ZArith String Ascii List Bool Lia.
From stdpp Require Import base option gmap strings.

Import ListNotations.
Local Open Scope Z_scope.

(** ** 64-bit integers

    Go's [int], [int64] and [time.Duration] are 64-bit two's complement
    integers here: a value is a [Z] and every arithmetic result is wrapped. *)
Module Int64.

Definition min_int : Z := - 2 ^ 63.
Definition max_int : Z := 2 ^ 63 - 1.

Definition in_range (z : Z) : Prop := min_int <= z <= max_int.

Definition wrap (z : Z) : Z := (z + 2 ^ 63) mod 2 ^ 64 - 2 ^ 63.

Definition add (a b : Z) : Z := wrap (a + b).
Definition mul (a b : Z) : Z := wrap (a * b).

End Int64.

(** ** time.Duration and time.Time *)
Module Duration.

(** A [time.Duration] is an int64 count of nanoseconds. *)
Definition Nanosecond : Z := 1.
Definition Microsecond : Z := 1000 * Nanosecond.
Definition Millisecond : Z := 1000 * Microsecond.
Definition Second : Z := 1000 * Millisecond.
Definition Minute : Z := 60 * Second.
Definition Hour : Z := 60 * Minute.

End Duration.

Module Time.

(** An instant is its number of nanoseconds since the Unix epoch.  The
    instants a Lease carries are RFC 3339 timestamps (years 0 to 9999) and
    a Duration spans less than 293 years, so the saturation of [Time.Add]
    at the ends of Go's representable range is never reached and is not
    modelled. *)
Definition Add (t d : Z) : Z := t + d.
Definition After (t u : Z) : bool := u <? t.
Definition Before (t u : Z) : bool := t <? u.

End Time.

(** ** strings.HasSuffix and strings.TrimSuffix *)
Definition HasSuffix (s suffix : string) : bool :=
  (String.length suffix <=? String.length s)%nat
  && String.eqb
       (substring (String.length s - String.length suffix)
                  (String.length suffix) s)
       suffix.

Definition TrimSuffix (s suffix : string) : string :=
  if HasSuffix s suffix
  then substring 0 (String.length s - String.length suffix) s
  else s.

(** ** Errors

    The dynamic types of the [error] values the code tells apart:
    [lease.AlreadyHeldError] (type assertion in [ObtainNodeLease]), the API
    server's status errors ([errors.IsNotFound] in [ManageLease]) and the
    plain errors made by [fmt.Errorf]. *)
Inductive StatusReason : Type :=
| StatusReasonNotFound
| StatusReasonAlreadyExists
| StatusReasonConflict
| StatusReasonTimeout
| StatusReasonInternalError
| StatusReasonUnknown.

Inductive error : Type :=
| AlreadyHeldError (holder : string)
| StatusError (reason : StatusReason) (message : string)
| errorString (s : string).

Definition IsNotFound (err : error) : bool :=
  match err with
  | StatusError StatusReasonNotFound _ => true
  | _ => false
  end.

Definition isAlreadyHeldError (err : error) : bool :=
  match err with
  | AlreadyHeldError _ => true
  | _ => false
  end.

(** ** Data model *)

(** corev1.ObjectReference, as far as the code reads it. *)
Record ObjectReference : Type := {
  Kind : string;
  RefName : string
}.

(** remediationv1alpha1.EscalatingRemediation *)
Record EscalatingRemediation : Type := {
  RemediationTemplate : ObjectReference;
  Order : Z;
  Timeout : Z
}.

Record NodeHealthCheckSpec : Type := {
  EscalatingRemediations : list EscalatingRemediation
}.

Record NodeHealthCheck : Type := {
  Spec : NodeHealthCheckSpec
}.

(** unstructured.Unstructured: a remediation CR, named after its node. *)
Record Unstructured : Type := {
  GetName : string;
  GetKind : string
}.

(** v1.Node *)
Record Node : Type := {
  NodeName : string
}.

(** coordv1.Lease; the four fields of its spec are pointers, [None] is nil. *)
Record LeaseSpec : Type := {
  HolderIdentity : option string;
  LeaseDurationSeconds : option Z;
  AcquireTime : option Z;
  RenewTime : option Z
}.

Record Lease : Type := {
  LeaseName : string;
  LSpec : LeaseSpec
}.

(** ** Package variables, with the values of their initialisers *)
Definition templateSuffix : string := "Template".
Definition holderIdentity : string := "Node-Healthcheck".
Definition LeaseBuffer : Z := Duration.Minute.
Definition RequeueIfLeaseTaken : Z := Duration.Minute.
Definition DefaultLeaseDuration : Z := Int64.mul 10 Duration.Minute.
Definition maxTimesToExtendLease : Z := 2.

(** ** Duration policy *)

(** The loop of [getTimeoutForRemediation]: the first step of the policy
    whose template kind, without the suffix, is the remediation's kind sets
    the result and breaks; without a match the zero value is returned. *)
Fixpoint getTimeoutLoop (remediationKind : string)
    (steps : list EscalatingRemediation) : Z :=
  match steps with
  | [] => 0
  | esRemediation :: rest =>
      if String.eqb
           (TrimSuffix (Kind (RemediationTemplate esRemediation)) "Template")
           remediationKind
      then Timeout esRemediation
      else getTimeoutLoop remediationKind rest
  end.

Definition getTimeoutForRemediation (remediationCR : Unstructured)
    (nhc : NodeHealthCheck) : Z :=
  getTimeoutLoop (GetKind remediationCR) (EscalatingRemediations (Spec nhc)).

Definition getLeaseDurationForRemediation (remediationCR : Unstructured)
    (nhc : NodeHealthCheck) : Z :=
  let timeout := getTimeoutForRemediation remediationCR nhc in
  if negb (timeout =? 0) then timeout else DefaultLeaseDuration.

(** The loop of [getLeaseDurationForRemediations], threading
    [highestRemediationLeaseDuration]. *)
Fixpoint highestLoop (nhc : NodeHealthCheck) (remediationCrs : list Unstructured)
    (highest : Z) : Z :=
  match remediationCrs with
  | [] => highest
  | remediationCr :: rest =>
      let currentLeaseDuration :=
        getLeaseDurationForRemediation remediationCr nhc in
      highestLoop nhc rest
        (if highest <? currentLeaseDuration
         then currentLeaseDuration else highest)
  end.

Definition getLeaseDurationForRemediations (nhc : NodeHealthCheck)
    (remediationCrs : list Unstructured) : Z :=
  if (0 <? length (EscalatingRemediations (Spec nhc)))%nat
  then highestLoop nhc remediationCrs 0
  else DefaultLeaseDuration.

Definition isRemediationsExist (remediationCrs : list Unstructured) : bool :=
  (0 <? length remediationCrs)%nat.

Definition isLeaseOwner (l : Lease) : bool :=
  match HolderIdentity (LSpec l) with
  | None => false
  | Some h => String.eqb h holderIdentity
  end.

(** [calcLeaseExpiration] dereferences [l.Spec.AcquireTime]: on nil it
    panics, which is [None] here. *)
Definition calcLeaseExpiration (l : Lease) (leaseDuration : Z) : option Z :=
  match AcquireTime (LSpec l) with
  | None => None
  | Some acquireTime =>
      Some (Time.Add acquireTime
              (Int64.mul (Int64.add maxTimesToExtendLease 1) leaseDuration))
  end.

(** ** Calls to the collaborators

    A program is a tree whose nodes are the calls the code makes, in the
    order it makes them: [m.client.Get] for a node, the three operations of
    [m.commonLeaseManager], [time.Now] and the logger.  [Panic] is a nil
    dereference. *)
Inductive LogEntry : Type :=
| LogInfo (msg : string)
| LogError (err : error) (msg : string).

Inductive Prog (A : Type) : Type :=
| Ret (a : A)
| Panic
| ClientGet (name : string) (k : Node + error -> Prog A)
| RequestLease (node : Node) (duration : Z) (k : option error -> Prog A)
| GetLease (node : Node) (k : Lease + error -> Prog A)
| InvalidateLease (node : Node) (k : option error -> Prog A)
| Now (k : Z -> Prog A)
| Log (entry : LogEntry) (k : Prog A).

Arguments Ret {A} a.
Arguments Panic {A}.
Arguments ClientGet {A} name k.
Arguments RequestLease {A} node duration k.
Arguments GetLease {A} node k.
Arguments InvalidateLease {A} node k.
Arguments Now {A} k.
Arguments Log {A} entry k.

Fixpoint bind {A B : Type} (p : Prog A) (f : A -> Prog B) : Prog B :=
  match p with
  | Ret a => f a
  | Panic => Panic
  | ClientGet name k => ClientGet name (fun r => bind (k r) f)
  | RequestLease node d k => RequestLease node d (fun r => bind (k r) f)
  | GetLease node k => GetLease node (fun r => bind (k r) f)
  | InvalidateLease node k => InvalidateLease node (fun r => bind (k r) f)
  | Now k => Now (fun t => bind (k t) f)
  | Log entry k => Log entry (bind k f)
  end.

Declare Scope prog_scope.
Delimit Scope prog_scope with prog.
Notation "x <- p ;; q" := (bind p (fun x => q))
  (at level 100, p at next level, right associativity) : prog_scope.
Notation "p ;;; q" := (bind p (fun _ => q))
  (at level 100, right associativity) : prog_scope.

Definition clientGet (name : string) : Prog (Node + error) := ClientGet name Ret.
Definition requestLease (node : Node) (d : Z) : Prog (option error) :=
  RequestLease node d Ret.
Definition getLease (node : Node) : Prog (Lease + error) := GetLease node Ret.
Definition invalidateLease (node : Node) : Prog (option error) :=
  InvalidateLease node Ret.
Definition timeNow : Prog Z := Now Ret.
Definition logInfo (msg : string) : Prog unit := Log (LogInfo msg) (Ret tt).
Definition logError (err : error) (msg : string) : Prog unit :=
  Log (LogError err msg) (Ret tt).

(** Dereference of a pointer: nil panics. *)
Definition deref {A : Type} (p : option A) : Prog A :=
  match p with
  | Some a => Ret a
  | None => Panic
  end.

(** ** The lease manager *)
Local Open Scope prog_scope.

Definition ObtainNodeLease (remediationCR : Unstructured) (nhc : NodeHealthCheck)
    : Prog (bool * option Z * option error) :=
  let nodeName := GetName remediationCR in
  let leaseDuration := getLeaseDurationForRemediation remediationCR nhc in
  let leaseDurationWithBuffer := Int64.add leaseDuration LeaseBuffer in
  got <- clientGet nodeName ;;
  match got with
  | inr err =>
      logError err "couldn't obtain node lease node error getting node" ;;;
      Ret (false, None, Some err)
  | inl node =>
      res <- requestLease node leaseDurationWithBuffer ;;
      match res with
      | Some err =>
          if isAlreadyHeldError err
          then
            logInfo "can't acquire node lease, it is already owned by another owner" ;;;
            Ret (false, Some RequeueIfLeaseTaken, Some err)
          else
            logError err "couldn't obtain lease for node" ;;;
            Ret (false, None, Some err)
      | None =>
          (* all good lease created with wanted duration *)
          Ret (true, Some leaseDuration, None)
      end
  end.

Definition MalformedLease : error := errorString "lease Spec.AcquireTime is nil".

Definition isLeaseOverdue (l : Lease) (nhc : NodeHealthCheck)
    (remediationCrs : list Unstructured) : Prog (bool * option error) :=
  match AcquireTime (LSpec l) with
  | None =>
      let err := MalformedLease in
      logError err "lease Spec.AcquireTime is nil" ;;;
      Ret (false, Some err)
  | Some _ =>
      let leaseDuration := getLeaseDurationForRemediations nhc remediationCrs in
      now <- timeNow ;;
      expiration <- deref (calcLeaseExpiration l leaseDuration) ;;
      Ret (Time.After now expiration, None)
  end.

Definition msgNoRemediations : string :=
  "managing lease - lease has no remediations so  about to be removed".
Definition msgOverdue : string :=
  "managing lease - lease is overdue about to be removed".
Definition msgExtend : string :=
  "managing lease - about to try to acquire/extended the lease".

Definition ManageLease (remediationCR : Unstructured) (nhc : NodeHealthCheck)
    (remediationCrs : list Unstructured) : Prog (Z * option error) :=
  got <- clientGet (GetName remediationCR) ;;
  match got with
  | inr err =>
      logError err "managing lease - couldn't fetch node" ;;;
      Ret (0, Some err)
  | inl node =>
      got <- getLease node ;;
      match got with
      | inr err =>
          if IsNotFound err
          then Ret (0, None)
          else
            logError err "managing lease - couldn't fetch lease" ;;;
            Ret (0, Some err)
      | inl l =>
          let exist := isRemediationsExist remediationCrs in
          if negb exist && isLeaseOwner l
          then
            (* release the lease - no remediations *)
            logInfo msgNoRemediations ;;;
            err <- invalidateLease node ;;
            Ret (0, err)
          else
            overdue <- isLeaseOverdue l nhc remediationCrs ;;
            match overdue with
            | (_, Some err) => Ret (0, Some err)
            | (true, None) =>
                (* release the lease - lease is overdue *)
                logInfo msgOverdue ;;;
                err <- invalidateLease node ;;
                Ret (0, err)
            | (false, None) =>
                let leaseExpectedDuration :=
                  getLeaseDurationForRemediations nhc remediationCrs in
                _ <- deref (calcLeaseExpiration l leaseExpectedDuration) ;;
                logInfo msgExtend ;;;
                now <- timeNow ;;
                let expectedExpiry := Time.Add now leaseExpectedDuration in
                renewTime <- deref (RenewTime (LSpec l)) ;;
                seconds <- deref (LeaseDurationSeconds (LSpec l)) ;;
                let actualExpiry :=
                  Time.Add renewTime (Int64.mul Duration.Second seconds) in
                if Time.Before actualExpiry expectedExpiry
                then
                  err <- requestLease node
                           (Int64.add leaseExpectedDuration LeaseBuffer) ;;
                  match err with
                  | Some err =>
                      logError err "couldn't renew lease" ;;;
                      Ret (0, Some err)
                  | None => Ret (leaseExpectedDuration, None)
                  end
                else Ret (leaseExpectedDuration, None)
            end
      end
  end.

Local Close Scope prog_scope.

(** ** Running a program against the collaborators

    [Cluster W] is what the code sees of the API server, the lease manager
    and the clock, over a state [W] of their own.  [run] feeds a program the
    answers of a cluster and records the calls made, in a trace. *)
Record Cluster (W : Type) : Type := {
  client_Get : string -> W -> (Node + error) * W;
  lease_RequestLease : Node -> Z -> W -> option error * W;
  lease_GetLease : Node -> W -> (Lease + error) * W;
  lease_InvalidateLease : Node -> W -> option error * W;
  time_Now : W -> Z * W
}.

Arguments client_Get {W} _ _ _.
Arguments lease_RequestLease {W} _ _ _ _.
Arguments lease_GetLease {W} _ _ _.
Arguments lease_InvalidateLease {W} _ _ _.
Arguments time_Now {W} _ _.

Inductive Event : Type :=
| EvClientGet (name : string)
| EvRequestLease (node : Node) (duration : Z)
| EvGetLease (node : Node)
| EvInvalidateLease (node : Node)
| EvNow
| EvLog (entry : LogEntry).

(** What a run leaves behind: the calls made, the state of the cluster, and
    the value returned ([None] when the program panicked). *)
Record Outcome (W A : Type) : Type := {
  trace : list Event;
  final : W;
  result : option A
}.

Arguments trace {W A} _.
Arguments final {W A} _.
Arguments result {W A} _.

Definition after {W A : Type} (e : Event) (o : Outcome W A) : Outcome W A :=
  {| trace := e :: trace o; final := final o; result := result o |}.

Fixpoint run {W A : Type} (c : Cluster W) (p : Prog A) (w : W) : Outcome W A :=
  match p with
  | Ret a => {| trace := []; final := w; result := Some a |}
  | Panic => {| trace := []; final := w; result := None |}
  | ClientGet name k =>
      let (r, w') := client_Get c name w in
      after (EvClientGet name) (run c (k r) w')
  | RequestLease node d k =>
      let (r, w') := lease_RequestLease c node d w in
      after (EvRequestLease node d) (run c (k r) w')
  | GetLease node k =>
      let (r, w') := lease_GetLease c node w in
      after (EvGetLease node) (run c (k r) w')
  | InvalidateLease node k =>
      let (r, w') := lease_InvalidateLease c node w in
      after (EvInvalidateLease node) (run c (k r) w')
  | Now k =>
      let (t, w') := time_Now c w in
      after EvNow (run c (k t) w')
  | Log entry k => after (EvLog entry) (run c k w)
  end.

(** The calls that write to the lease store. *)
Definition isStoreWrite (e : Event) : bool :=
  match e with
  | EvRequestLease _ _ | EvInvalidateLease _ => true
  | _ => false
  end.

Definition storeWrites (t : list Event) : list Event :=
  List.filter isStoreWrite t.

(** ** An in-memory cluster *)

(** Modelled from the spec: the LeaseStore of medik8s/common is not part of
    the sources; section 6 gives its contract.  [requestLease] creates or
    renews and fails with [AlreadyHeldError] when another holder's lease is
    still valid; [getLease] fails with a NotFound error when the lease is
    absent; [invalidateLease] deletes and is a no-op on an absent lease.
    [acquireTime] is set at creation and kept by a renewal. *)
Module MemStore.

Record World : Type := {
  nodes : gset string;
  leases : gmap string Lease;
  clock : Z;
  tick : Z
}.

Definition notFound (what : string) : error :=
  StatusError StatusReasonNotFound what.

Definition get (name : string) (w : World) : (Node + error) * World :=
  if decide (name ∈ nodes w)
  then (inl {| NodeName := name |}, w)
  else (inr (notFound "nodes"), w).

Definition leaseValid (l : Lease) (now : Z) : bool :=
  match RenewTime (LSpec l), LeaseDurationSeconds (LSpec l) with
  | Some renew, Some seconds => now <=? renew + seconds * Duration.Second
  | _, _ => false
  end.

Definition withLeases (w : World) (ls : gmap string Lease) : World :=
  {| nodes := nodes w; leases := ls; clock := clock w; tick := tick w |}.

Definition freshLease (name : string) (d now : Z) : Lease :=
  {| LeaseName := name;
     LSpec := {| HolderIdentity := Some holderIdentity;
                 LeaseDurationSeconds := Some (d / Duration.Second);
                 AcquireTime := Some now;
                 RenewTime := Some now |} |}.

Definition renewed (l : Lease) (d now : Z) : Lease :=
  {| LeaseName := LeaseName l;
     LSpec := {| HolderIdentity := Some holderIdentity;
                 LeaseDurationSeconds := Some (d / Duration.Second);
                 AcquireTime := AcquireTime (LSpec l);
                 RenewTime := Some now |} |}.

(** Modelled from the spec: [requestLease(node, ttl, holderIdentity)],
    create-or-renew; it fails with [AlreadyHeldError] if the lease is held by
    a different holder within a still-valid TTL. *)
Definition request (node : Node) (d : Z) (w : World)
    : option error * World :=
  let name := NodeName node in
  match leases w !! name with
  | None => (None, withLeases w (<[name := freshLease name d (clock w)]> (leases w)))
  | Some l =>
      if isLeaseOwner l
      then (None, withLeases w (<[name := renewed l d (clock w)]> (leases w)))
      else if leaseValid l (clock w)
      then (Some (AlreadyHeldError (default "" (HolderIdentity (LSpec l)))), w)
      else (None, withLeases w (<[name := freshLease name d (clock w)]> (leases w)))
  end.

(** Modelled from the spec: [getLease(node)], which fails with a not-found
    error if the lease is absent. *)
Definition lookup (node : Node) (w : World) : (Lease + error) * World :=
  match leases w !! NodeName node with
  | Some l => (inl l, w)
  | None => (inr (notFound "leases"), w)
  end.

(** Modelled from the spec: [invalidateLease(node)], which deletes the lease
    and is a no-op, without error, on an absent one. *)
Definition invalidate (node : Node) (w : World) : option error * World :=
  (None, withLeases w (delete (NodeName node) (leases w))).

(** Every reading of the clock moves it on by [tick]. *)
Definition now (w : World) : Z * World :=
  (clock w,
   {| nodes := nodes w; leases := leases w;
      clock := clock w + tick w; tick := tick w |}).

Definition cluster : Cluster World :=
  {| client_Get := get;
     lease_RequestLease := request;
     lease_GetLease := lookup;
     lease_InvalidateLease := invalidate;
     time_Now := now |}.

End MemStore.

(** ** Vocabulary of the statements *)

(** The remediation kind an escalation step stands for. *)
Definition stepKind (es : EscalatingRemediation) : string :=
  TrimSuffix (Kind (RemediationTemplate es)) "Template".

Definition policy (nhc : NodeHealthCheck) : list EscalatingRemediation :=
  EscalatingRemediations (Spec nhc).

(** The greatest of a list of durations and of a floor. *)
Definition maxFrom (floor : Z) (ds : list Z) : Z := fold_right Z.max floor ds.

Definition durations (nhc : NodeHealthCheck) (remediationCrs : list Unstructured)
    : list Z :=
  map (fun cr => getLeaseDurationForRemediation cr nhc) remediationCrs.

(** The maximum of a list: a member that bounds every member. *)
Definition isMaximumOf (m : Z) (ds : list Z) : Prop :=
  In m ds /\ forall d, In d ds -> d <= m.

(** A call that returns an error. *)
Definition failed {W A : Type} (o : Outcome W (A * option error)) : Prop :=
  exists a err, result o = Some (a, Some err).

(** ** Scenarios

    One node, [worker-1], with the remediations and policies of the
    escalation example, in the in-memory cluster. *)
Module Scenario.

Definition worker : Node := {| NodeName := "worker-1" |}.

Definition softReboot : Unstructured :=
  {| GetName := "worker-1"; GetKind := "SoftReboot" |}.
Definition powerCycle : Unstructured :=
  {| GetName := "worker-1"; GetKind := "PowerCycle" |}.

Definition step (kind : string) (order timeout : Z) : EscalatingRemediation :=
  {| RemediationTemplate := {| Kind := kind; RefName := "template" |};
     Order := order; Timeout := timeout |}.

Definition withSteps (steps : list EscalatingRemediation) : NodeHealthCheck :=
  {| Spec := {| EscalatingRemediations := steps |} |}.

Definition plain : NodeHealthCheck := withSteps [].
Definition escalating : NodeHealthCheck :=
  withSteps [step "SoftRebootTemplate" 0 (5 * Duration.Minute);
             step "PowerCycleTemplate" 1 (20 * Duration.Minute)].
Definition negative : NodeHealthCheck :=
  withSteps [step "SoftRebootTemplate" 0 (- (5 * Duration.Minute))].

(** The instant the lease was acquired. *)
Definition t0 : Z := 1700000000 * Duration.Second.

Definition leaseOf (holder : option string) (acquire : option Z) : Lease :=
  {| LeaseName := "worker-1";
     LSpec := {| HolderIdentity := holder;
                 LeaseDurationSeconds := Some 660;
                 AcquireTime := acquire;
                 RenewTime := Some t0 |} |}.

Definition ours : Lease := leaseOf (Some holderIdentity) (Some t0).
Definition foreign : Lease := leaseOf (Some "other-operator"%string) (Some t0).
Definition unheld : Lease := leaseOf None (Some t0).
Definition malformed : Lease := leaseOf (Some holderIdentity) None.

Definition world (ns : list string) (ls : list (string * Lease)) (now : Z)
    : MemStore.World :=
  {| MemStore.nodes := list_to_set ns;
     MemStore.leases := list_to_map ls;
     MemStore.clock := now;
     MemStore.tick := Duration.Second |}.

Definition at_ (l : Lease) (now : Z) : MemStore.World :=
  world ["worker-1"%string] [("worker-1"%string, l)] now.

Definition free : MemStore.World := world ["worker-1"%string] [] t0.
Definition noNode : MemStore.World :=
  world [] [("worker-1"%string, ours)] t0.

Definition later (w : MemStore.World) : MemStore.World :=
  snd (MemStore.now w).

End Scenario.

(** ** logManageLeaseChanges

    The two [error] values are compared with Go's [!=] on interface values,
    which is identity for the pointer-shaped errors of the standard library;
    the comparison is the argument [differ]. *)
Definition logManageLeaseChanges (differ : option error -> option error -> bool)
    (originalRequeue updatedRequeue : Z)
    (originalErr updatedErr : option error) : list LogEntry :=
  if negb (originalRequeue =? updatedRequeue) && differ originalErr updatedErr
  then [LogInfo "updated requeue and err values"]
  else if negb (originalRequeue =? updatedRequeue)
  then [LogInfo "updated requeue value"]
  else if differ originalErr updatedErr
  then [LogInfo "updated error value"]
  else if match updatedErr with None => true | Some _ => false end
          && (updatedRequeue =? 0)
  then [LogInfo "successful reconcile, no changes made"]
  else [].

(** ** The MachineHealthCheck conflict checker (package mhc) *)
Module mhc.

(** NodeConditionTerminating is the node condition type used by the
    termination handler MHC. *)
Definition NodeConditionTerminating : string := "Terminating".

Inductive mhcStatus : Type :=
| unknown
| noMHC
| terminationMHCOnly
| customMHC.

Definition mhcStatus_eqb (a b : mhcStatus) : bool :=
  match a, b with
  | unknown, unknown | noMHC, noMHC
  | terminationMHCOnly, terminationMHCOnly | customMHC, customMHC => true
  | _, _ => false
  end.

(** v1beta1.UnhealthyCondition and v1beta1.MachineHealthCheck, as far as
    the checker reads them. *)
Record UnhealthyCondition : Type := {
  UCType : string;
  UCStatus : string;
  UCTimeout : Z
}.

Record MachineHealthCheck : Type := {
  MHCName : string;
  UnhealthyConditions : list UnhealthyCondition
}.

(** v1.Node with the conditions of its status. *)
Record NodeCondition : Type := {
  CondType : string;
  CondStatus : string
}.

Record Node : Type := {
  Name : string;
  Conditions : list NodeCondition
}.

(** The mutable part of the [checker] struct. *)
Record checker : Type := {
  status : mhcStatus;
  mhcRunning : bool
}.

Definition setStatus (c : checker) (s : mhcStatus) : checker :=
  {| status := s; mhcRunning := mhcRunning c |}.

(** What a method of the checker leaves behind: the checker, the entries
    logged, and the value returned. *)
Record Done (A : Type) : Type := {
  self : checker;
  logged : list LogEntry;
  returned : A
}.

Arguments self {A} _.
Arguments logged {A} _.
Arguments returned {A} _.

Definition msgNoMHC : string := "no MHC found".
Definition msgCustomMHC : string := "found custom MHC, will disable NHC".
Definition msgTerminationMHC : string :=
  "found termination handler MHC, will ignore Nodes with Terminating condition".
Definition msgIgnoring : string :=
  "ignoring unhealthy Node, it is terminating and will be handled by MHC".

(** The tail of [UpdateStatus]: everything else might cause conflicts. *)
Definition becomeCustom (c : checker) : Done (option error) :=
  {| self := setStatus c customMHC;
     logged := if negb (mhcStatus_eqb (status c) customMHC)
               then [LogInfo msgCustomMHC] else [];
     returned := None |}.

(** [UpdateStatus]; [listed] is the answer of [c.client.List] for the
    MachineHealthChecks of the cluster. *)
Definition UpdateStatus (listed : list MachineHealthCheck + error) (c : checker)
    : Done (option error) :=
  match listed with
  | inr err =>
      {| self := c; logged := [LogError err "failed to list MHC"];
         returned := Some err |}
  | inl items =>
      if (length items =? 0)%nat
      then
        (* no MHC found, we are fine *)
        {| self := setStatus c noMHC;
           logged := if negb (mhcStatus_eqb (status c) noMHC)
                     then [LogInfo msgNoMHC] else [];
           returned := None |}
      else if (1 <? length items)%nat
      then
        (* multiple MHCs found, disable NHC *)
        becomeCustom c
      else
        match items with
        | [] => {| self := c; logged := []; returned := None |}
        | m :: _ =>
            let terminationOnly :=
              (length (UnhealthyConditions m) =? 1)%nat
              && match UnhealthyConditions m with
                 | [] => false
                 | uc :: _ => String.eqb (UCType uc) NodeConditionTerminating
                 end in
            if terminationOnly
            then
              if negb (mhcStatus_eqb (status c) terminationMHCOnly)
              then {| self := setStatus c terminationMHCOnly;
                      logged := [LogInfo msgTerminationMHC];
                      returned := None |}
              else {| self := c; logged := []; returned := None |}
            else becomeCustom c
        end
  end.

Definition NeedDisableNHC (c : checker) : bool :=
  match status c with
  | unknown | noMHC | terminationMHCOnly => false
  | customMHC => true
  end.

(** The loop of [NeedIgnoreNode] over the conditions of the node. *)
Fixpoint ignoreLoop (conds : list NodeCondition) : bool * list LogEntry :=
  match conds with
  | [] => (false, [])
  | cond :: rest =>
      if String.eqb (CondType cond) NodeConditionTerminating
      then (true, [LogInfo msgIgnoring])
      else ignoreLoop rest
  end.

Definition NeedIgnoreNode (c : checker) (node : Node) : bool * list LogEntry :=
  (* if no MHC configured, don't ignore any node *)
  if mhcStatus_eqb (status c) noMHC
  then (false, [])
  else ignoreLoop (Conditions node).

End mhc.

(** ** Conditions (package utils) *)
Module utils.

(** metav1.Condition, as far as [IsConditionTrue] reads it. *)
Record Condition : Type := {
  Type_ : string;
  Status : string;
  Reason : string
}.

Definition ConditionTrue : string := "True".

(** meta.FindStatusCondition of k8s.io/apimachinery: the first condition of
    the given type, nil when there is none. *)
Fixpoint FindStatusCondition (conditions : list Condition)
    (conditionType : string) : option Condition :=
  match conditions with
  | [] => None
  | c :: rest =>
      if String.eqb (Type_ c) conditionType
      then Some c
      else FindStatusCondition rest conditionType
  end.

Definition IsConditionTrue (conditions : list Condition)
    (conditionType reason : string) : bool :=
  match FindStatusCondition conditions conditionType with
  | None => false
  | Some condition =>
      if negb (String.eqb (Status condition) ConditionTrue) then false
      else if negb (String.eqb (Reason condition) reason) then false
      else true
  end.

End utils.

(** ** The end-to-end test's template lookup (package e2e) *)
Module e2e.

(** An item of the list of remediation templates. *)
Record Template : Type := {
  TemplateName : string;
  TemplateNamespace : string
}.

Definition defaultTemplateName : string :=
  "self-node-remediation-resource-deletion-template".

Definition templateNotFound : error :=
  errorString "failed to find the default remediation template".

(** The loop of [getTemplateNS]. *)
Fixpoint templateLoop (items : list Template) : string * option error :=
  match items with
  | [] => (EmptyString, Some templateNotFound)
  | t :: rest =>
      if String.eqb (TemplateName t) defaultTemplateName
      then (TemplateNamespace t, None)
      else templateLoop rest
  end.

(** [getTemplateNS]; [listed] is the answer of the dynamic client's List. *)
Definition getTemplateNS (listed : list Template + error)
    : string * option error :=
  match listed with
  | inr err => (EmptyString, Some err)
  | inl items => templateLoop items
  end.

End e2e.

(** The one MachineHealthCheck that is no conflict: it has a single
    unhealthy condition, of type Terminating. *)
Definition terminationHandler (m : mhc.MachineHealthCheck) : Prop :=
  exists uc, mhc.UnhealthyConditions m = [uc]
             /\ mhc.UCType uc = mhc.NodeConditionTerminating.

(** A node that carries the condition Terminating. *)
Definition terminating (node : mhc.Node) : Prop :=
  exists cond, In cond (mhc.Conditions node)
               /\ mhc.CondType cond = mhc.NodeConditionTerminating.

(** * Properties *)

(** ** Strings *)

Lemma length_append (s1 s2 : string) :
  String.length (String.append s1 s2) = (String.length s1 + String.length s2)%nat.
Proof. induction s1 as [|a s1 IH]; simpl; [reflexivity | now rewrite IH]. Qed.

Lemma substring_all (s : string) : substring 0 (String.length s) s = s.
Proof. induction s as [|a s IH]; simpl; [reflexivity | now rewrite IH]. Qed.

Lemma substring_append_suffix (s1 s2 : string) :
  substring (String.length s1) (String.length s2) (String.append s1 s2) = s2.
Proof. induction s1 as [|a s1 IH]; simpl; [apply substring_all | exact IH]. Qed.

Lemma substring_append_prefix (s1 s2 : string) :
  substring 0 (String.length s1) (String.append s1 s2) = s1.
Proof.
  induction s1 as [|a s1 IH]; simpl.
  - destruct s2; reflexivity.
  - now rewrite IH.
Qed.

Lemma HasSuffix_append (s suffix : string) :
  HasSuffix (String.append s suffix) suffix = true.
Proof.
  unfold HasSuffix. rewrite length_append.
  replace (String.length s + String.length suffix - String.length suffix)%nat
    with (String.length s) by lia.
  rewrite substring_append_suffix, String.eqb_refl, andb_true_r.
  apply Nat.leb_le. lia.
Qed.

Lemma TrimSuffix_append (s suffix : string) :
  TrimSuffix (String.append s suffix) suffix = s.
Proof.
  unfold TrimSuffix. rewrite HasSuffix_append, length_append.
  replace (String.length s + String.length suffix - String.length suffix)%nat
    with (String.length s) by lia.
  apply substring_append_prefix.
Qed.

(** ** 64-bit arithmetic *)

Lemma wrap_in_range (z : Z) : Int64.in_range z -> Int64.wrap z = z.
Proof.
  unfold Int64.in_range, Int64.min_int, Int64.max_int, Int64.wrap. intros H.
  rewrite Z.mod_small; lia.
Qed.

Lemma DefaultLeaseDuration_value : DefaultLeaseDuration = 10 * Duration.Minute.
Proof. reflexivity. Qed.

(** ** Duration policy *)

Lemma getTimeoutLoop_first_match (kind : string) (before : list EscalatingRemediation)
    (es : EscalatingRemediation) (rest : list EscalatingRemediation) :
  (forall e, In e before -> stepKind e <> kind) ->
  stepKind es = kind ->
  getTimeoutLoop kind (before ++ es :: rest) = Timeout es.
Proof.
  intros Hbefore Hes. induction before as [|e before IH]; simpl.
  - fold (stepKind es). rewrite Hes, String.eqb_refl. reflexivity.
  - fold (stepKind e).
    destruct (String.eqb_spec (stepKind e) kind) as [Heq | _].
    + exfalso. apply (Hbefore e); [left; reflexivity | exact Heq].
    + apply IH. intros e' He'. apply Hbefore. right. exact He'.
Qed.

Lemma getTimeoutLoop_no_match (kind : string) (steps : list EscalatingRemediation) :
  (forall e, In e steps -> stepKind e <> kind) ->
  getTimeoutLoop kind steps = 0.
Proof.
  induction steps as [|e steps IH]; intros Hnone; simpl; [reflexivity |].
  fold (stepKind e).
  destruct (String.eqb_spec (stepKind e) kind) as [Heq | _].
  - exfalso. apply (Hnone e); [left; reflexivity | exact Heq].
  - apply IH. intros e' He'. apply Hnone. right. exact He'.
Qed.

(** C5.  [getLeaseDurationForRemediation] scans the policy in order and
    returns the timeout of the first step whose kind, the template kind with
    the suffix "Template" removed, is exactly the remediation's kind; when no
    step matches, or that first matching step has a zero timeout, it returns
    [DefaultLeaseDuration].  Removing the suffix from [k ++ "Template"] gives
    [k], and a kind that differs only in case does not match. *)
Theorem getLeaseDurationForRemediation_first_match :
  forall (remediationCR : Unstructured) (nhc : NodeHealthCheck),
    (forall before es rest,
        policy nhc = before ++ es :: rest ->
        (forall e, In e before -> stepKind e <> GetKind remediationCR) ->
        stepKind es = GetKind remediationCR ->
        getLeaseDurationForRemediation remediationCR nhc =
          if Timeout es =? 0 then DefaultLeaseDuration else Timeout es)
    /\ ((forall e, In e (policy nhc) -> stepKind e <> GetKind remediationCR) ->
        getLeaseDurationForRemediation remediationCR nhc = DefaultLeaseDuration)
    /\ (forall es k,
           Kind (RemediationTemplate es) = String.append k "Template" ->
           stepKind es = k)
    /\ stepKind {| RemediationTemplate :=
                     {| Kind := "SoftRebootTemplate"; RefName := "" |};
                   Order := 0; Timeout := 1 |} <> "softreboot"%string.
Proof.
  intros remediationCR nhc. repeat split.
  - intros before es rest Hpol Hbefore Hes.
    unfold getLeaseDurationForRemediation, getTimeoutForRemediation.
    unfold policy in Hpol. rewrite Hpol.
    rewrite (getTimeoutLoop_first_match _ _ _ _ Hbefore Hes).
    destruct (Timeout es =? 0); reflexivity.
  - intros Hnone.
    unfold getLeaseDurationForRemediation, getTimeoutForRemediation.
    fold (policy nhc). rewrite (getTimeoutLoop_no_match _ _ Hnone). reflexivity.
  - intros es k Hk. unfold stepKind. rewrite Hk. apply TrimSuffix_append.
  - discriminate.
Qed.

Lemma maxFrom_max (h d : Z) (ds : list Z) :
  maxFrom (Z.max h d) ds = Z.max d (maxFrom h ds).
Proof.
  induction ds as [|x ds IH]; simpl.
  - apply Z.max_comm.
  - rewrite IH. lia.
Qed.

Lemma highestLoop_maxFrom (nhc : NodeHealthCheck) (remediationCrs : list Unstructured) :
  forall highest,
    highestLoop nhc remediationCrs highest
    = maxFrom highest (durations nhc remediationCrs).
Proof.
  induction remediationCrs as [|cr rest IH]; intros highest; simpl;
    [reflexivity |].
  rewrite IH.
  destruct (Z.ltb_spec highest (getLeaseDurationForRemediation cr nhc)).
  - rewrite <- maxFrom_max. f_equal. lia.
  - rewrite <- maxFrom_max. f_equal. lia.
Qed.

Lemma maxFrom_upper_bound (floor : Z) (ds : list Z) :
  floor <= maxFrom floor ds /\ forall d, In d ds -> d <= maxFrom floor ds.
Proof.
  induction ds as [|x ds [IHf IHd]]; simpl.
  - split; [lia | intros d []].
  - split; [lia |]. intros d [<- | Hd]; [lia |].
    specialize (IHd d Hd). lia.
Qed.

Lemma maxFrom_attained (floor : Z) (ds : list Z) :
  (exists d, In d ds /\ floor <= d) -> In (maxFrom floor ds) ds.
Proof.
  induction ds as [|x ds IH]; simpl; intros [d [Hin Hle]]; [destruct Hin |].
  destruct (Z.max_spec x (maxFrom floor ds)) as [[Hlt ->] | [Hge ->]].
  - right. destruct Hin as [<- | Hin].
    + destruct (Z.eq_dec (maxFrom floor ds) floor) as [Heq | Hne].
      * lia.
      * apply IH. clear IH Hlt Hle. induction ds as [|y ds IHds]; simpl in *.
        -- contradiction.
        -- destruct (Z.max_spec y (maxFrom floor ds)) as [[Hlt' Hm] | [Hge' Hm]].
           ++ rewrite Hm in Hne. destruct (IHds Hne) as [d' [Hd' Hf]].
              exists d'. split; [right; exact Hd' | exact Hf].
           ++ exists y. split; [left; reflexivity |].
              pose proof (proj1 (maxFrom_upper_bound floor ds)). lia.
    + apply IH. exists d. split; assumption.
  - left. reflexivity.
Qed.


Lemma getTimeoutLoop_nonneg (kind : string) (steps : list EscalatingRemediation) :
  (forall es, In es steps -> 0 <= Timeout es) ->
  0 <= getTimeoutLoop kind steps.
Proof.
  induction steps as [|e steps IH]; intros Hpos; simpl; [lia |].
  destruct (String.eqb _ kind).
  - apply Hpos. left. reflexivity.
  - apply IH. intros es Hes. apply Hpos. right. exact Hes.
Qed.

Lemma getLeaseDurationForRemediation_nonneg (cr : Unstructured)
    (nhc : NodeHealthCheck) :
  (forall es, In es (policy nhc) -> 0 <= Timeout es) ->
  0 <= getLeaseDurationForRemediation cr nhc.
Proof.
  intros Hpos. unfold getLeaseDurationForRemediation, getTimeoutForRemediation.
  pose proof (getTimeoutLoop_nonneg (GetKind cr) _ Hpos) as Hloop.
  unfold policy in Hloop.
  destruct (getTimeoutLoop (GetKind cr) (EscalatingRemediations (Spec nhc)) =? 0);
    simpl; [| exact Hloop].
  rewrite DefaultLeaseDuration_value. unfold Duration.Minute, Duration.Second,
    Duration.Millisecond, Duration.Microsecond, Duration.Nanosecond. lia.
Qed.

(** C4, as the code has it.  [getLeaseDurationForRemediations] returns
    [DefaultLeaseDuration] (10 minutes) whenever the policy has no steps,
    whatever the remediations.  With a non-empty policy it returns the
    greatest of zero and of the durations of the given remediations: an upper
    bound of every one of them, zero for an empty remediation set and, when
    no timeout of the policy is negative, the maximum of the durations of a
    non-empty set. *)
Theorem getLeaseDurationForRemediations_spec :
  forall (nhc : NodeHealthCheck) (remediationCrs : list Unstructured),
    (policy nhc = [] ->
       getLeaseDurationForRemediations nhc remediationCrs = DefaultLeaseDuration
       /\ DefaultLeaseDuration = 10 * Duration.Minute)
    /\ (policy nhc <> [] ->
          getLeaseDurationForRemediations nhc remediationCrs
            = maxFrom 0 (durations nhc remediationCrs)
          /\ (forall cr, In cr remediationCrs ->
                getLeaseDurationForRemediation cr nhc
                  <= getLeaseDurationForRemediations nhc remediationCrs)
          /\ (remediationCrs <> [] ->
              (forall es, In es (policy nhc) -> 0 <= Timeout es) ->
              isMaximumOf (getLeaseDurationForRemediations nhc remediationCrs)
                          (durations nhc remediationCrs))
          /\ (remediationCrs = [] ->
                getLeaseDurationForRemediations nhc remediationCrs = 0)).
Proof.
  intros nhc remediationCrs. split.
  - unfold policy, getLeaseDurationForRemediations. intros ->. simpl.
    split; reflexivity.
  - intros Hne.
    assert (Hrun : getLeaseDurationForRemediations nhc remediationCrs
                   = maxFrom 0 (durations nhc remediationCrs)).
    { unfold policy in Hne. unfold getLeaseDurationForRemediations.
      destruct (EscalatingRemediations (Spec nhc)) as [|es steps];
        [contradiction |].
      simpl. apply highestLoop_maxFrom. }
    rewrite Hrun.
    pose proof (maxFrom_upper_bound 0 (durations nhc remediationCrs)) as [_ Hub].
    assert (Hin : forall cr, In cr remediationCrs ->
              In (getLeaseDurationForRemediation cr nhc)
                 (durations nhc remediationCrs)).
    { intros cr Hcr. unfold durations.
      apply (in_map (fun cr => getLeaseDurationForRemediation cr nhc)).
      exact Hcr. }
    split; [reflexivity |]. split; [| split].
    + intros cr Hcr. apply Hub, Hin, Hcr.
    + intros Hrems Hpos. split; [| exact Hub].
      apply maxFrom_attained.
      destruct remediationCrs as [|cr rest]; [contradiction |].
      exists (getLeaseDurationForRemediation cr nhc). split.
      * apply Hin. left. reflexivity.
      * apply getLeaseDurationForRemediation_nonneg. exact Hpos.
    + intros ->. reflexivity.
Qed.

Lemma mul_Second_int32 (seconds : Z) :
  - 2 ^ 31 <= seconds < 2 ^ 31 ->
  Int64.mul Duration.Second seconds = seconds * Duration.Second.
Proof.
  intros H. unfold Int64.mul. rewrite wrap_in_range.
  - apply Z.mul_comm.
  - unfold Int64.in_range, Int64.min_int, Int64.max_int.
    change Duration.Second with 1000000000. lia.
Qed.

Lemma isLeaseOwner_true_iff (l : Lease) :
  isLeaseOwner l = true <-> HolderIdentity (LSpec l) = Some holderIdentity.
Proof.
  unfold isLeaseOwner. destruct (HolderIdentity (LSpec l)) as [h|].
  - rewrite String.eqb_eq. split; congruence.
  - split; discriminate.
Qed.

Lemma isLeaseOwner_false_iff (l : Lease) :
  isLeaseOwner l = false <-> HolderIdentity (LSpec l) <> Some holderIdentity.
Proof.
  rewrite <- isLeaseOwner_true_iff. destruct (isLeaseOwner l); split; congruence.
Qed.

(** ** Overdue detection *)

Section Arbiter.

Context {W : Type} (c : Cluster W).

(** C1.  [isLeaseOverdue] fails exactly when the lease's acquire time is
    unset: it then returns false with the malformed-lease error, writes
    nothing to the lease store and leaves the cluster as it was.  With an
    acquire time it returns, without error, whether the clock reading is
    after [acquireTime + (maxTimesToExtendLease + 1) * requiredDuration],
    the product being a Duration; the factor is 3, and the product is the
    exact one whenever that fits a Duration. *)
Theorem isLeaseOverdue_spec :
  forall (l : Lease) (nhc : NodeHealthCheck) (remediationCrs : list Unstructured)
         (w : W),
    let o := run c (isLeaseOverdue l nhc remediationCrs) w in
    let requiredDuration := getLeaseDurationForRemediations nhc remediationCrs in
    (failed o <-> AcquireTime (LSpec l) = None)
    /\ (AcquireTime (LSpec l) = None ->
          result o = Some (false, Some MalformedLease)
          /\ storeWrites (trace o) = [] /\ final o = w)
    /\ (forall acquireTime,
          AcquireTime (LSpec l) = Some acquireTime ->
          let now := fst (time_Now c w) in
          let bound :=
            acquireTime
            + Int64.mul (maxTimesToExtendLease + 1) requiredDuration in
          result o = Some (bound <? now, None)
          /\ storeWrites (trace o) = []
          /\ maxTimesToExtendLease + 1 = 3
          /\ (Int64.in_range (3 * requiredDuration) ->
                bound = acquireTime + 3 * requiredDuration)).
Proof.
  intros l nhc remediationCrs w o requiredDuration.
  subst o. unfold isLeaseOverdue, calcLeaseExpiration, failed.
  destruct (AcquireTime (LSpec l)) as [acquireTime|] eqn:Hacq; simpl.
  - destruct (time_Now c w) as [now w'] eqn:Hnow. simpl.
    split; [| split].
    + split; [intros [a [err H]]; discriminate | discriminate].
    + discriminate.
    + intros acq [= <-]. repeat split.
      intros Hrange. unfold Int64.mul.
      change (maxTimesToExtendLease + 1) with 3.
      rewrite (wrap_in_range _ Hrange). reflexivity.
  - split; [| split].
    + split; [reflexivity | intros _; eexists; eexists; reflexivity].
    + intros _. repeat split.
    + discriminate.
Qed.

(** ** ObtainNodeLease *)

(** C6.  A call of [ObtainNodeLease] that obtains the lease has asked the
    lease store, once, for [d + LeaseBuffer], where [d] is the duration of
    the remediation, and returns [(true, d, nil)]: the buffer is in the
    requested time and not in the returned one.  It succeeds whenever the
    node is fetched and the request is granted.  For [d] of 10 minutes the
    request is for 11 minutes. *)
Theorem ObtainNodeLease_success :
  forall (remediationCR : Unstructured) (nhc : NodeHealthCheck) (w : W),
    let o := run c (ObtainNodeLease remediationCR nhc) w in
    let d := getLeaseDurationForRemediation remediationCR nhc in
    let ttl := Int64.add d LeaseBuffer in
    (forall recheck err,
        result o = Some (true, recheck, err) ->
        recheck = Some d /\ err = None
        /\ exists node, storeWrites (trace o) = [EvRequestLease node ttl])
    /\ (forall node w1 w2,
           client_Get c (GetName remediationCR) w = (inl node, w1) ->
           lease_RequestLease c node ttl w1 = (None, w2) ->
           result o = Some (true, Some d, None)
           /\ trace o = [EvClientGet (GetName remediationCR);
                         EvRequestLease node ttl]
           /\ final o = w2)
    /\ (Int64.in_range (d + LeaseBuffer) -> ttl = d + LeaseBuffer)
    /\ (d = 10 * Duration.Minute -> ttl = 11 * Duration.Minute).
Proof.
  intros remediationCR nhc w o d ttl.
  assert (Ho : o = run c (ObtainNodeLease remediationCR nhc) w) by reflexivity.
  clearbody o. unfold ObtainNodeLease in Ho. fold d in Ho. fold ttl in Ho.
  simpl in Ho.
  destruct (client_Get c (GetName remediationCR) w) as [[node | e] w1];
    simpl in Ho.
  - destruct (lease_RequestLease c node ttl w1) as [[e |] w2] eqn:Hreq;
      simpl in Ho.
    + assert (Hres : forall recheck err, result o <> Some (true, recheck, err)).
      { intros recheck err. subst o.
        destruct (isAlreadyHeldError e); simpl; discriminate. }
      split; [| split; [| split]].
      * intros recheck err H. destruct (Hres _ _ H).
      * intros node' w1' w2' [= <- <-]. rewrite Hreq. discriminate.
      * intros Hr. apply (wrap_in_range _ Hr).
      * intros Hd. subst ttl. rewrite Hd. reflexivity.
    + subst o. simpl. split; [| split; [| split]].
      * intros recheck err [= <- <-]. repeat split. exists node. reflexivity.
      * intros node' w1' w2' [= <- <-]. rewrite Hreq. intros [= <-].
        repeat split.
      * intros Hr. apply (wrap_in_range _ Hr).
      * intros Hd. subst ttl. rewrite Hd. reflexivity.
  - subst o. simpl. split; [| split; [| split]].
    + discriminate.
    + discriminate.
    + intros Hr. apply (wrap_in_range _ Hr).
    + intros Hd. subst ttl. rewrite Hd. reflexivity.
Qed.

(** Failures of [ObtainNodeLease], over any cluster: when the request is refused
    because the lease is held, the call returns the fixed one-minute
    requeue time with that very error and makes no call after the refused
    request; any other failure, of the node lookup or of the request, is
    returned as it is, without a requeue time. *)
Lemma ObtainNodeLease_failure :
  forall (remediationCR : Unstructured) (nhc : NodeHealthCheck) (w : W),
    let o := run c (ObtainNodeLease remediationCR nhc) w in
    let ttl :=
      Int64.add (getLeaseDurationForRemediation remediationCR nhc) LeaseBuffer in
    (forall node w1 err w2,
        client_Get c (GetName remediationCR) w = (inl node, w1) ->
        lease_RequestLease c node ttl w1 = (Some err, w2) ->
        final o = w2
        /\ storeWrites (trace o) = [EvRequestLease node ttl]
        /\ result o =
             if isAlreadyHeldError err
             then Some (false, Some RequeueIfLeaseTaken, Some err)
             else Some (false, None, Some err))
    /\ (forall err w1,
           client_Get c (GetName remediationCR) w = (inr err, w1) ->
           final o = w1 /\ storeWrites (trace o) = []
           /\ result o = Some (false, None, Some err)).
Proof.
  intros remediationCR nhc w o ttl.
  assert (Ho : o = run c (ObtainNodeLease remediationCR nhc) w) by reflexivity.
  clearbody o. unfold ObtainNodeLease in Ho. fold ttl in Ho. simpl in Ho.
  split.
  - intros node w1 err w2 Hget Hreq. rewrite Hget in Ho. simpl in Ho.
    rewrite Hreq in Ho. simpl in Ho. subst o.
    destruct (isAlreadyHeldError err); simpl; repeat split.
  - intros err w1 Hget. rewrite Hget in Ho. subst o. simpl. repeat split.
Qed.

(** ** ManageLease *)

(** C8, as the code has it.  A lease that is not found is nothing to
    manage: the call returns [(0, nil)] and makes no further call.  A node
    that cannot be fetched is a failure of the call, also when the error is
    a not-found error: the error is logged, with the message of the node
    lookup, and returned with a zero requeue time; the lookup and the log
    entry are all the call does. *)
Theorem ManageLease_not_found :
  forall (remediationCR : Unstructured) (nhc : NodeHealthCheck)
         (remediationCrs : list Unstructured) (w : W),
    let o := run c (ManageLease remediationCR nhc remediationCrs) w in
    (forall node w1 err w2,
        client_Get c (GetName remediationCR) w = (inl node, w1) ->
        lease_GetLease c node w1 = (inr err, w2) ->
        IsNotFound err = true ->
        result o = Some (0, None) /\ final o = w2
        /\ trace o = [EvClientGet (GetName remediationCR); EvGetLease node])
    /\ (forall err w1,
           client_Get c (GetName remediationCR) w = (inr err, w1) ->
           result o = Some (0, Some err) /\ final o = w1
           /\ storeWrites (trace o) = []
           /\ trace o = [EvClientGet (GetName remediationCR);
                         EvLog (LogError err
                                  "managing lease - couldn't fetch node")]).
Proof.
  intros remediationCR nhc remediationCrs w o.
  assert (Ho : o = run c (ManageLease remediationCR nhc remediationCrs) w)
    by reflexivity.
  clearbody o. unfold ManageLease in Ho. simpl in Ho. split.
  - intros node w1 err w2 Hget Hlease Hnf.
    rewrite Hget in Ho. simpl in Ho. rewrite Hlease in Ho. simpl in Ho.
    rewrite Hnf in Ho. subst o. simpl. repeat split.
  - intros err w1 Hget. rewrite Hget in Ho. subst o. simpl. repeat split.
Qed.

(** The four ways through [ManageLease] once the node and the lease are
    fetched.  [guard] is the condition of the first branch. *)
Section Fetched.

Variables (remediationCR : Unstructured) (nhc : NodeHealthCheck)
          (remediationCrs : list Unstructured).
Variables (w w1 w2 : W) (node : Node) (l : Lease).
Hypothesis Hnode :
  client_Get c (GetName remediationCR) w = (inl node, w1).
Hypothesis Hlease : lease_GetLease c node w1 = (inl l, w2).

Let guard : bool := negb (isRemediationsExist remediationCrs) && isLeaseOwner l.
Let requiredDuration : Z := getLeaseDurationForRemediations nhc remediationCrs.
Let fetched : list Event :=
  [EvClientGet (GetName remediationCR); EvGetLease node].

Lemma ManageLease_released_without_remediations :
  forall err w3,
    guard = true ->
    lease_InvalidateLease c node w2 = (err, w3) ->
    run c (ManageLease remediationCR nhc remediationCrs) w
    = {| trace := fetched ++ [EvLog (LogInfo msgNoRemediations);
                              EvInvalidateLease node];
         final := w3;
         result := Some (0, err) |}.
Proof.
  intros err w3 Hguard Hinv. unfold ManageLease. simpl.
  rewrite Hnode. simpl. rewrite Hlease. simpl.
  fold guard. rewrite Hguard. simpl. rewrite Hinv. reflexivity.
Qed.

Lemma ManageLease_malformed :
  guard = false ->
  AcquireTime (LSpec l) = None ->
  run c (ManageLease remediationCR nhc remediationCrs) w
  = {| trace := fetched ++ [EvLog (LogError MalformedLease
                                     "lease Spec.AcquireTime is nil")];
       final := w2;
       result := Some (0, Some MalformedLease) |}.
Proof.
  intros Hguard Hacq. unfold ManageLease. simpl.
  rewrite Hnode. simpl. rewrite Hlease. simpl.
  fold guard. rewrite Hguard. unfold isLeaseOverdue. rewrite Hacq.
  reflexivity.
Qed.

Lemma ManageLease_released_overdue :
  forall acquireTime now w3 err w4,
    guard = false ->
    AcquireTime (LSpec l) = Some acquireTime ->
    time_Now c w2 = (now, w3) ->
    acquireTime + Int64.mul 3 requiredDuration < now ->
    lease_InvalidateLease c node w3 = (err, w4) ->
    run c (ManageLease remediationCR nhc remediationCrs) w
    = {| trace := fetched ++ [EvNow; EvLog (LogInfo msgOverdue);
                              EvInvalidateLease node];
         final := w4;
         result := Some (0, err) |}.
Proof.
  intros acquireTime now w3 err w4 Hguard Hacq Hnow Hlate Hinv.
  unfold ManageLease. simpl.
  rewrite Hnode. simpl. rewrite Hlease. simpl.
  fold guard. rewrite Hguard.
  unfold isLeaseOverdue, calcLeaseExpiration. rewrite Hacq. simpl.
  rewrite Hnow. simpl. unfold Time.After, Time.Add.
  fold requiredDuration.
  change (Int64.add maxTimesToExtendLease 1) with 3.
  apply Z.ltb_lt in Hlate. rewrite Hlate. simpl.
  rewrite Hinv. reflexivity.
Qed.

Lemma ManageLease_kept :
  forall acquireTime now w3 renewTime seconds now' w4,
    guard = false ->
    AcquireTime (LSpec l) = Some acquireTime ->
    time_Now c w2 = (now, w3) ->
    now <= acquireTime + Int64.mul 3 requiredDuration ->
    RenewTime (LSpec l) = Some renewTime ->
    LeaseDurationSeconds (LSpec l) = Some seconds ->
    time_Now c w3 = (now', w4) ->
    let checked := fetched ++ [EvNow; EvLog (LogInfo msgExtend); EvNow] in
    let ttl := Int64.add requiredDuration LeaseBuffer in
    run c (ManageLease remediationCR nhc remediationCrs) w
    = if renewTime + Int64.mul Duration.Second seconds
         <? now' + requiredDuration
      then
        match lease_RequestLease c node ttl w4 with
        | (None, w5) =>
            {| trace := checked ++ [EvRequestLease node ttl];
               final := w5;
               result := Some (requiredDuration, None) |}
        | (Some err, w5) =>
            {| trace := checked ++ [EvRequestLease node ttl;
                                    EvLog (LogError err "couldn't renew lease")];
               final := w5;
               result := Some (0, Some err) |}
        end
      else
        {| trace := checked; final := w4;
           result := Some (requiredDuration, None) |}.
Proof.
  intros acquireTime now w3 renewTime seconds now' w4
         Hguard Hacq Hnow Hearly Hrenew Hsecs Hnow' checked ttl.
  unfold ManageLease. simpl.
  rewrite Hnode. simpl. rewrite Hlease. simpl.
  fold guard. rewrite Hguard.
  unfold isLeaseOverdue, calcLeaseExpiration. rewrite Hacq. simpl.
  rewrite Hnow. simpl. unfold Time.After, Time.Add.
  fold requiredDuration.
  change (Int64.add maxTimesToExtendLease 1) with 3.
  apply Z.ltb_ge in Hearly. rewrite Hearly. simpl.
  rewrite Hnow'. simpl. rewrite Hrenew. simpl. rewrite Hsecs. simpl.
  unfold Time.Before. fold ttl.
  destruct (renewTime + Int64.mul Duration.Second seconds
            <? now' + requiredDuration); simpl; [| reflexivity].
  destruct (lease_RequestLease c node ttl w4) as [[err |] w5]; reflexivity.
Qed.

End Fetched.

(** C3.  In the branch of [ManageLease] reached with remediations and a
    lease that is not overdue, the lease is requested again, for
    [requiredDuration + LeaseBuffer], exactly when
    [renewTime + durationSeconds] is strictly before
    [now + requiredDuration]; otherwise nothing is written to the store.
    Whenever no error is returned, the returned time is [requiredDuration];
    an error of the request is returned as it is. *)
Theorem ManageLease_extends_iff_expiring_early :
  forall (remediationCR : Unstructured) (nhc : NodeHealthCheck)
         (remediationCrs : list Unstructured)
         (w w1 w2 w3 w4 : W) (node : Node) (l : Lease)
         (acquireTime renewTime seconds now now' : Z),
    client_Get c (GetName remediationCR) w = (inl node, w1) ->
    lease_GetLease c node w1 = (inl l, w2) ->
    remediationCrs <> [] ->
    AcquireTime (LSpec l) = Some acquireTime ->
    RenewTime (LSpec l) = Some renewTime ->
    LeaseDurationSeconds (LSpec l) = Some seconds ->
    - 2 ^ 31 <= seconds < 2 ^ 31 ->
    time_Now c w2 = (now, w3) ->
    now <= acquireTime
           + Int64.mul 3 (getLeaseDurationForRemediations nhc remediationCrs) ->
    time_Now c w3 = (now', w4) ->
    let requiredDuration := getLeaseDurationForRemediations nhc remediationCrs in
    let actualExpiry := renewTime + seconds * Duration.Second in
    let expectedExpiry := now' + requiredDuration in
    let ttl := Int64.add requiredDuration LeaseBuffer in
    let o := run c (ManageLease remediationCR nhc remediationCrs) w in
    (actualExpiry < expectedExpiry ->
       storeWrites (trace o) = [EvRequestLease node ttl]
       /\ final o = snd (lease_RequestLease c node ttl w4)
       /\ result o = match fst (lease_RequestLease c node ttl w4) with
                     | None => Some (requiredDuration, None)
                     | Some err => Some (0, Some err)
                     end)
    /\ (expectedExpiry <= actualExpiry ->
          storeWrites (trace o) = [] /\ final o = w4
          /\ result o = Some (requiredDuration, None))
    /\ (forall recheck, result o = Some (recheck, None) ->
                        recheck = requiredDuration)
    /\ (Int64.in_range (requiredDuration + LeaseBuffer) ->
          ttl = requiredDuration + LeaseBuffer).
Proof.
  intros remediationCR nhc remediationCrs w w1 w2 w3 w4 node l
         acquireTime renewTime seconds now now'
         Hnode Hlease Hrems Hacq Hrenew Hsecs Hint32 Hnow Hearly Hnow'
         requiredDuration actualExpiry expectedExpiry ttl o.
  assert (Hguard : negb (isRemediationsExist remediationCrs) && isLeaseOwner l
                   = false).
  { destruct remediationCrs; [contradiction | reflexivity]. }
  pose proof (ManageLease_kept remediationCR nhc remediationCrs w w1 w2 node l
                Hnode Hlease acquireTime now w3 renewTime seconds now' w4
                Hguard Hacq Hnow Hearly Hrenew Hsecs Hnow') as Hrun.
  cbv zeta in Hrun. fold requiredDuration in Hrun. fold ttl in Hrun.
  fold o in Hrun. rewrite (mul_Second_int32 _ Hint32) in Hrun.
  fold actualExpiry in Hrun. fold expectedExpiry in Hrun.
  destruct (Z.ltb_spec actualExpiry expectedExpiry) as [Hlt | Hge].
  - destruct (lease_RequestLease c node ttl w4) as [[err |] w5];
      rewrite Hrun; simpl.
    + split; [| split; [| split]].
      * intros _. repeat split.
      * intros Hle. lia.
      * discriminate.
      * intros Hr. apply (wrap_in_range _ Hr).
    + split; [| split; [| split]].
      * intros _. repeat split.
      * intros Hle. lia.
      * intros recheck [= <-]. reflexivity.
      * intros Hr. apply (wrap_in_range _ Hr).
  - rewrite Hrun. simpl. split; [| split; [| split]].
    + intros Hlt. lia.
    + intros _. repeat split.
    + intros recheck [= <-]. reflexivity.
    + intros Hr. apply (wrap_in_range _ Hr).
Qed.

(** C9.  With no remediations, a policy that has steps and a lease with an
    acquire time that another holder owns, the required duration is zero
    and the bound of the overdue check is the acquire time itself: once the
    clock is past the acquire time the lease is found overdue and
    [InvalidateLease] is called on it, although it is another holder's. *)
Theorem ManageLease_releases_foreign_lease_when_policy_has_steps :
  forall (remediationCR : Unstructured) (nhc : NodeHealthCheck)
         (w w1 w2 w3 : W) (node : Node) (l : Lease) (acquireTime now : Z),
    client_Get c (GetName remediationCR) w = (inl node, w1) ->
    lease_GetLease c node w1 = (inl l, w2) ->
    policy nhc <> [] ->
    HolderIdentity (LSpec l) <> Some holderIdentity ->
    AcquireTime (LSpec l) = Some acquireTime ->
    time_Now c w2 = (now, w3) ->
    acquireTime < now ->
    let o := run c (ManageLease remediationCR nhc []) w in
    getLeaseDurationForRemediations nhc [] = 0
    /\ calcLeaseExpiration l (getLeaseDurationForRemediations nhc [])
       = Some acquireTime
    /\ In (EvLog (LogInfo msgOverdue)) (trace o)
    /\ storeWrites (trace o) = [EvInvalidateLease node]
    /\ result o = Some (0, fst (lease_InvalidateLease c node w3))
    /\ final o = snd (lease_InvalidateLease c node w3).
Proof.
  intros remediationCR nhc w w1 w2 w3 node l acquireTime now
         Hnode Hlease Hpol Hholder Hacq Hnow Hlate o.
  assert (Hzero : getLeaseDurationForRemediations nhc [] = 0).
  { unfold getLeaseDurationForRemediations. unfold policy in Hpol.
    destruct (EscalatingRemediations (Spec nhc)); [contradiction | reflexivity]. }
  assert (Hguard : negb (isRemediationsExist []) && isLeaseOwner l = false).
  { apply isLeaseOwner_false_iff in Hholder. rewrite Hholder. reflexivity. }
  destruct (lease_InvalidateLease c node w3) as [err w4] eqn:Hinv.
  assert (Hlate' : acquireTime
                   + Int64.mul 3 (getLeaseDurationForRemediations nhc []) < now).
  { rewrite Hzero. change (Int64.mul 3 0) with 0. lia. }
  pose proof (ManageLease_released_overdue remediationCR nhc [] w w1 w2 node l
                Hnode Hlease acquireTime now w3 err w4
                Hguard Hacq Hnow Hlate' Hinv) as Hrun.
  fold o in Hrun. rewrite Hrun. simpl.
  split; [exact Hzero |]. split.
  { unfold calcLeaseExpiration. rewrite Hacq, Hzero. unfold Time.Add.
    change (Int64.mul (Int64.add maxTimesToExtendLease 1) 0) with 0.
    f_equal. lia. }
  split; [right; right; right; left; reflexivity |].
  repeat split.
Qed.

(** Without an owner's lease the first branch is not taken: its message is
    never logged, and every call of [InvalidateLease] follows the overdue
    check, on a lease with an acquire time that the clock had passed by
    three required durations. *)
Lemma ManageLease_not_owner_only_overdue_release :
  forall (remediationCR : Unstructured) (nhc : NodeHealthCheck)
         (remediationCrs : list Unstructured)
         (w w1 w2 : W) (node : Node) (l : Lease),
    client_Get c (GetName remediationCR) w = (inl node, w1) ->
    lease_GetLease c node w1 = (inl l, w2) ->
    isLeaseOwner l = false ->
    let o := run c (ManageLease remediationCR nhc remediationCrs) w in
    ~ In (EvLog (LogInfo msgNoRemediations)) (trace o)
    /\ (forall n, In (EvInvalidateLease n) (trace o) ->
          In (EvLog (LogInfo msgOverdue)) (trace o)
          /\ exists acquireTime,
               AcquireTime (LSpec l) = Some acquireTime
               /\ acquireTime
                  + Int64.mul 3
                      (getLeaseDurationForRemediations nhc remediationCrs)
                  < fst (time_Now c w2)).
Proof.
  intros remediationCR nhc remediationCrs w w1 w2 node l
         Hnode Hlease Howner o.
  assert (Hguard : negb (isRemediationsExist remediationCrs) && isLeaseOwner l
                   = false).
  { rewrite Howner. apply andb_false_r. }
  destruct (AcquireTime (LSpec l)) as [acquireTime |] eqn:Hacq.
  2:{ subst o.
      rewrite (ManageLease_malformed remediationCR nhc remediationCrs
                 w w1 w2 node l Hnode Hlease Hguard Hacq).
      simpl. split.
      - intros [H | [H | [H | []]]]; discriminate.
      - intros n [H | [H | [H | []]]]; discriminate. }
  destruct (time_Now c w2) as [now w3] eqn:Hnow.
  destruct (Z.lt_ge_cases
              (acquireTime
               + Int64.mul 3 (getLeaseDurationForRemediations nhc remediationCrs))
              now) as [Hlate | Hearly].
  - destruct (lease_InvalidateLease c node w3) as [err w4] eqn:Hinv.
    subst o.
    rewrite (ManageLease_released_overdue remediationCR nhc remediationCrs
               w w1 w2 node l Hnode Hlease acquireTime now w3 err w4
               Hguard Hacq Hnow Hlate Hinv).
    simpl. split.
    + intros [H | [H | [H | [H | [H | []]]]]]; discriminate.
    + intros n _. split; [tauto |].
      exists acquireTime. split; [reflexivity | exact Hlate].
  - assert (Hno : ~ In (EvLog (LogInfo msgNoRemediations)) (trace o)
                  /\ forall n, ~ In (EvInvalidateLease n) (trace o)).
    { subst o. unfold ManageLease. simpl.
      rewrite Hnode. simpl. rewrite Hlease. simpl. rewrite Hguard.
      unfold isLeaseOverdue, calcLeaseExpiration. rewrite Hacq. simpl.
      rewrite Hnow. simpl. unfold Time.After, Time.Add.
      change (Int64.add maxTimesToExtendLease 1) with 3.
      apply Z.ltb_ge in Hearly. rewrite Hearly. simpl.
      destruct (time_Now c w3) as [now' w4]. simpl.
      destruct (RenewTime (LSpec l)) as [renewTime |]; simpl.
      2:{ split; [| intros n]; intros [H | [H | [H | [H | [H | []]]]]];
          discriminate. }
      destruct (LeaseDurationSeconds (LSpec l)) as [seconds |]; simpl.
      2:{ split; [| intros n]; intros [H | [H | [H | [H | [H | []]]]]];
          discriminate. }
      destruct (Time.Before _ _); simpl.
      2:{ split; [| intros n]; intros [H | [H | [H | [H | [H | []]]]]];
          discriminate. }
      destruct (lease_RequestLease c node _ w4) as [[err |] w5]; simpl.
      - split; [| intros n];
          intros [H | [H | [H | [H | [H | [H | [H | []]]]]]]]; discriminate.
      - split; [| intros n];
          intros [H | [H | [H | [H | [H | [H | []]]]]]]; discriminate. }
    destruct Hno as [Hno1 Hno2]. split; [exact Hno1 |].
    intros n Hin. destruct (Hno2 n Hin).
Qed.

(** C10.  On a lease without holder identity [isLeaseOwner] answers false,
    so that [ManageLease] without remediations does not take the branch
    that releases an owner's lease: that branch's message is not logged,
    and if the lease is invalidated at all, it is as an overdue lease. *)
Theorem ManageLease_nil_holder_is_not_owner :
  forall (remediationCR : Unstructured) (nhc : NodeHealthCheck)
         (w w1 w2 : W) (node : Node) (l : Lease),
    HolderIdentity (LSpec l) = None ->
    client_Get c (GetName remediationCR) w = (inl node, w1) ->
    lease_GetLease c node w1 = (inl l, w2) ->
    let o := run c (ManageLease remediationCR nhc []) w in
    isLeaseOwner l = false
    /\ ~ In (EvLog (LogInfo msgNoRemediations)) (trace o)
    /\ (forall n, In (EvInvalidateLease n) (trace o) ->
          In (EvLog (LogInfo msgOverdue)) (trace o)
          /\ exists acquireTime,
               AcquireTime (LSpec l) = Some acquireTime
               /\ acquireTime
                  + Int64.mul 3 (getLeaseDurationForRemediations nhc [])
                  < fst (time_Now c w2)).
Proof.
  intros remediationCR nhc w w1 w2 node l Hnil Hnode Hlease o.
  assert (Howner : isLeaseOwner l = false).
  { unfold isLeaseOwner. rewrite Hnil. reflexivity. }
  split; [exact Howner |].
  exact (ManageLease_not_owner_only_overdue_release remediationCR nhc []
           w w1 w2 node l Hnode Hlease Howner).
Qed.

(** C2, as the code has it.  Without remediations, a lease held under this
    process's identity is released: [InvalidateLease] is the one write, and
    its error is returned with a zero requeue time.  A lease of another
    holder does not go that way but on to the overdue check, and is left
    untouched only when it is neither overdue nor about to expire before
    the required duration has passed: an overdue lease is invalidated, an
    early expiring one is requested again. *)
Theorem ManageLease_without_remediations :
  forall (remediationCR : Unstructured) (nhc : NodeHealthCheck)
         (w w1 w2 : W) (node : Node) (l : Lease),
    client_Get c (GetName remediationCR) w = (inl node, w1) ->
    lease_GetLease c node w1 = (inl l, w2) ->
    let o := run c (ManageLease remediationCR nhc []) w in
    let requiredDuration := getLeaseDurationForRemediations nhc [] in
    (HolderIdentity (LSpec l) = Some holderIdentity ->
       storeWrites (trace o) = [EvInvalidateLease node]
       /\ result o = Some (0, fst (lease_InvalidateLease c node w2))
       /\ final o = snd (lease_InvalidateLease c node w2))
    /\ (HolderIdentity (LSpec l) <> Some holderIdentity ->
          ~ In (EvLog (LogInfo msgNoRemediations)) (trace o)
          /\ (AcquireTime (LSpec l) = None ->
                storeWrites (trace o) = []
                /\ result o = Some (0, Some MalformedLease))
          /\ forall acquireTime renewTime seconds now w3 now' w4,
               AcquireTime (LSpec l) = Some acquireTime ->
               RenewTime (LSpec l) = Some renewTime ->
               LeaseDurationSeconds (LSpec l) = Some seconds ->
               time_Now c w2 = (now, w3) ->
               time_Now c w3 = (now', w4) ->
               storeWrites (trace o)
               = if acquireTime + Int64.mul 3 requiredDuration <? now
                 then [EvInvalidateLease node]
                 else if renewTime + Int64.mul Duration.Second seconds
                         <? now' + requiredDuration
                 then [EvRequestLease node
                         (Int64.add requiredDuration LeaseBuffer)]
                 else []).
Proof.
  intros remediationCR nhc w w1 w2 node l Hnode Hlease o requiredDuration.
  split.
  - intros Hholder. apply isLeaseOwner_true_iff in Hholder.
    assert (Hguard : negb (isRemediationsExist []) && isLeaseOwner l = true).
    { rewrite Hholder. reflexivity. }
    destruct (lease_InvalidateLease c node w2) as [err w3] eqn:Hinv.
    subst o.
    rewrite (ManageLease_released_without_remediations remediationCR nhc []
               w w1 w2 node l Hnode Hlease err w3 Hguard Hinv).
    simpl. repeat split.
  - intros Hholder. apply isLeaseOwner_false_iff in Hholder.
    assert (Hguard : negb (isRemediationsExist []) && isLeaseOwner l = false).
    { rewrite Hholder. reflexivity. }
    split; [| split].
    + apply (ManageLease_not_owner_only_overdue_release remediationCR nhc []
               w w1 w2 node l Hnode Hlease Hholder).
    + intros Hacq. subst o.
      rewrite (ManageLease_malformed remediationCR nhc [] w w1 w2 node l
                 Hnode Hlease Hguard Hacq).
      split; reflexivity.
    + intros acquireTime renewTime seconds now w3 now' w4
             Hacq Hrenew Hsecs Hnow Hnow'.
      destruct (Z.ltb_spec (acquireTime + Int64.mul 3 requiredDuration) now)
        as [Hlate | Hearly].
      * destruct (lease_InvalidateLease c node w3) as [err w4'] eqn:Hinv.
        subst o.
        rewrite (ManageLease_released_overdue remediationCR nhc []
                   w w1 w2 node l Hnode Hlease acquireTime now w3 err w4'
                   Hguard Hacq Hnow Hlate Hinv).
        reflexivity.
      * subst o.
        rewrite (ManageLease_kept remediationCR nhc []
                   w w1 w2 node l Hnode Hlease acquireTime now w3
                   renewTime seconds now' w4
                   Hguard Hacq Hnow Hearly Hrenew Hsecs Hnow').
        fold requiredDuration.
        destruct (renewTime + Int64.mul Duration.Second seconds
                  <? now' + requiredDuration); [| reflexivity].
        destruct (lease_RequestLease c node _ w4) as [[err |] w5];
          reflexivity.
Qed.

End Arbiter.

(** ** Contention *)

(** In the in-memory store a refused request changes no lease. *)
Lemma MemStore_request_refused (node : Node) (d : Z) (m m' : MemStore.World)
    (err : error) :
  MemStore.request node d m = (Some err, m') ->
  m' = m
  /\ exists l, MemStore.leases m !! NodeName node = Some l
               /\ isLeaseOwner l = false
               /\ err = AlreadyHeldError (default "" (HolderIdentity (LSpec l))).
Proof.
  unfold MemStore.request.
  destruct (MemStore.leases m !! NodeName node) as [l |] eqn:Hl;
    [| discriminate].
  destruct (isLeaseOwner l) eqn:Howner; [discriminate |].
  destruct (MemStore.leaseValid l (MemStore.clock m)); [| discriminate].
  intros [= <- <-]. split; [reflexivity |].
  exists l. repeat split. exact Howner.
Qed.

(** C7.  When the lease store answers a request of [ObtainNodeLease] with an
    already-held error, the call returns [(false, RequeueIfLeaseTaken, err)]
    with that error, one minute, and makes no call after the refused request;
    an error that is not an already-held error, from the request or from the
    node lookup, is returned unchanged and without a requeue time.  In the
    in-memory store the refused call leaves every lease as it was. *)
Theorem ObtainNodeLease_contention :
  forall (W : Type) (c : Cluster W)
         (remediationCR : Unstructured) (nhc : NodeHealthCheck) (w : W),
    let o := run c (ObtainNodeLease remediationCR nhc) w in
    let ttl :=
      Int64.add (getLeaseDurationForRemediation remediationCR nhc) LeaseBuffer in
    (forall node w1 holder w2,
        client_Get c (GetName remediationCR) w = (inl node, w1) ->
        lease_RequestLease c node ttl w1 = (Some (AlreadyHeldError holder), w2) ->
        result o = Some (false, Some RequeueIfLeaseTaken,
                         Some (AlreadyHeldError holder))
        /\ RequeueIfLeaseTaken = 1 * Duration.Minute
        /\ final o = w2
        /\ storeWrites (trace o) = [EvRequestLease node ttl])
    /\ (forall node w1 err w2,
           client_Get c (GetName remediationCR) w = (inl node, w1) ->
           lease_RequestLease c node ttl w1 = (Some err, w2) ->
           (forall holder, err <> AlreadyHeldError holder) ->
           result o = Some (false, None, Some err))
    /\ (forall err w1,
           client_Get c (GetName remediationCR) w = (inr err, w1) ->
           result o = Some (false, None, Some err))
    /\ (forall (m : MemStore.World) recheck holder,
           let om := run MemStore.cluster (ObtainNodeLease remediationCR nhc) m in
           result om = Some (false, recheck, Some (AlreadyHeldError holder)) ->
           final om = m
           /\ exists l, MemStore.leases m !! GetName remediationCR = Some l
                        /\ HolderIdentity (LSpec l) <> Some holderIdentity).
Proof.
  intros W c remediationCR nhc w o ttl.
  destruct (ObtainNodeLease_failure c remediationCR nhc w) as [Hreq Hget].
  fold o in Hreq, Hget. fold ttl in Hreq.
  split; [| split; [| split]].
  - intros node w1 holder w2 Hnode Hheld.
    destruct (Hreq node w1 _ w2 Hnode Hheld) as [Hfinal [Hwrites Hresult]].
    repeat split; assumption.
  - intros node w1 err w2 Hnode Hfail Hother.
    destruct (Hreq node w1 err w2 Hnode Hfail) as [_ [_ Hresult]].
    rewrite Hresult. destruct err; try reflexivity.
    destruct (Hother holder). reflexivity.
  - intros err w1 Hnode. apply (Hget err w1 Hnode).
  - intros m recheck holder om Hres.
    destruct (ObtainNodeLease_failure MemStore.cluster remediationCR nhc m)
      as [Hreqm Hgetm].
    fold om in Hreqm, Hgetm. simpl in Hreqm, Hgetm.
    unfold MemStore.get in Hreqm, Hgetm.
    destruct (decide (GetName remediationCR ∈ MemStore.nodes m)) as [Hin | Hout].
    + destruct (MemStore.request {| NodeName := GetName remediationCR |}
                  (Int64.add (getLeaseDurationForRemediation remediationCR nhc)
                     LeaseBuffer) m) as [[err |] m'] eqn:Hrequest.
      * destruct (Hreqm _ _ _ _ eq_refl Hrequest) as [Hfinal [_ _]].
        destruct (MemStore_request_refused _ _ _ _ _ Hrequest)
          as [-> [l [Hl [Howner _]]]].
        split; [exact Hfinal |]. exists l. split; [exact Hl |].
        apply isLeaseOwner_false_iff. exact Howner.
      * exfalso. subst om. unfold ObtainNodeLease in Hres. simpl in Hres.
        unfold MemStore.get in Hres.
        destruct (decide (GetName remediationCR ∈ MemStore.nodes m));
          [| contradiction].
        simpl in Hres. rewrite Hrequest in Hres. discriminate.
    + destruct (Hgetm _ _ eq_refl) as [_ [_ Hresult]].
      rewrite Hresult in Hres. discriminate.
Qed.


Import Scenario.

(** ** The duration policy on the escalation example *)

Lemma getLeaseDurationForRemediation_first_match_witness :
  getLeaseDurationForRemediation powerCycle escalating = 20 * Duration.Minute.
Proof.
  refine (proj1 (getLeaseDurationForRemediation_first_match powerCycle escalating)
            [step "SoftRebootTemplate" 0 (5 * Duration.Minute)]
            (step "PowerCycleTemplate" 1 (20 * Duration.Minute)) []
            eq_refl _ eq_refl).
  intros e [<- | []]. discriminate.
Defined.

Lemma getLeaseDurationForRemediations_spec_witness :
  isMaximumOf (20 * Duration.Minute)
              (durations escalating [softReboot; powerCycle])
  /\ getLeaseDurationForRemediations escalating [softReboot; powerCycle]
     = 20 * Duration.Minute.
Proof.
  destruct (proj2 (getLeaseDurationForRemediations_spec escalating
                     [softReboot; powerCycle]))
    as [Hvalue [_ [Hmax _]]]; [discriminate |].
  split; [| exact Hvalue].
  apply Hmax; [discriminate |].
  intros es [<- | [<- | []]]; vm_compute; discriminate.
Defined.

(** C4, as stated, fails on a step with a negative timeout: the only
    per-remediation duration is minus five minutes, and the result is zero,
    which is not one of the durations. *)
Lemma getLeaseDurationForRemediations_negative_timeout :
  policy negative <> []
  /\ durations negative [softReboot] = [- (5 * Duration.Minute)]
  /\ getLeaseDurationForRemediations negative [softReboot] = 0
  /\ ~ isMaximumOf (getLeaseDurationForRemediations negative [softReboot])
                   (durations negative [softReboot]).
Proof.
  split; [discriminate |]. split; [reflexivity |]. split; [reflexivity |].
  intros [[H | []] _]. discriminate H.
Qed.

(** ** The overdue check, thirty minutes after the acquisition *)

Lemma isLeaseOverdue_spec_witness :
  result (run MemStore.cluster (isLeaseOverdue ours plain [softReboot])
            (at_ ours (t0 + 30 * Duration.Minute)))
  = Some (false, None)
  /\ result (run MemStore.cluster (isLeaseOverdue ours plain [softReboot])
               (at_ ours (t0 + 30 * Duration.Minute + 1)))
     = Some (true, None)
  /\ result (run MemStore.cluster (isLeaseOverdue malformed plain [softReboot])
               (at_ malformed t0))
     = Some (false, Some MalformedLease).
Proof.
  split; [| split].
  - exact (proj1 (proj2 (proj2 (isLeaseOverdue_spec MemStore.cluster ours plain
                                  [softReboot]
                                  (at_ ours (t0 + 30 * Duration.Minute))))
                   t0 eq_refl)).
  - exact (proj1 (proj2 (proj2 (isLeaseOverdue_spec MemStore.cluster ours plain
                                  [softReboot]
                                  (at_ ours (t0 + 30 * Duration.Minute + 1))))
                   t0 eq_refl)).
  - exact (proj1 (proj1 (proj2 (isLeaseOverdue_spec MemStore.cluster malformed
                                  plain [softReboot] (at_ malformed t0)))
                   eq_refl)).
Defined.

(** ** Obtaining the lease *)

Lemma ObtainNodeLease_success_witness :
  let o := run MemStore.cluster (ObtainNodeLease softReboot plain) free in
  result o = Some (true, Some (10 * Duration.Minute), None)
  /\ trace o = [EvClientGet "worker-1";
                EvRequestLease worker (11 * Duration.Minute)].
Proof.
  intros o.
  destruct (proj1 (proj2 (ObtainNodeLease_success MemStore.cluster softReboot
                            plain free))
              worker free
              (snd (MemStore.request worker (11 * Duration.Minute) free))
              eq_refl eq_refl) as [Hresult [Htrace _]].
  split; [exact Hresult | exact Htrace].
Defined.

Lemma ObtainNodeLease_contention_witness :
  let w := at_ foreign (t0 + 1) in
  let o := run MemStore.cluster (ObtainNodeLease softReboot plain) w in
  result o = Some (false, Some (1 * Duration.Minute),
                   Some (AlreadyHeldError "other-operator"))
  /\ final o = w.
Proof.
  intros w o.
  destruct (proj1 (ObtainNodeLease_contention MemStore.World MemStore.cluster
                     softReboot plain w)
              worker w "other-operator"%string w eq_refl eq_refl)
    as [Hresult [_ [Hfinal _]]].
  split; [exact Hresult | exact Hfinal].
Defined.

(** ** Managing the lease *)

Lemma ManageLease_not_found_witness :
  result (run MemStore.cluster (ManageLease softReboot plain [softReboot]) free)
  = Some (0, None)
  /\ trace (run MemStore.cluster (ManageLease softReboot plain [softReboot])
              noNode)
     = [EvClientGet "worker-1";
        EvLog (LogError (MemStore.notFound "nodes")
                 "managing lease - couldn't fetch node")].
Proof.
  split.
  - exact (proj1 (proj1 (ManageLease_not_found MemStore.cluster softReboot plain
                           [softReboot] free)
                    worker free (MemStore.notFound "leases") free
                    eq_refl eq_refl eq_refl)).
  - exact (proj2 (proj2 (proj2
             (proj2 (ManageLease_not_found MemStore.cluster softReboot plain
                       [softReboot] noNode)
                (MemStore.notFound "nodes") noNode eq_refl)))).
Defined.

(** C8, as stated, fails when it is the node that is not found: the error of
    the lookup, a not-found error, comes back from [ManageLease]. *)
Lemma ManageLease_node_not_found_is_returned :
  let o := run MemStore.cluster (ManageLease softReboot plain [softReboot])
             noNode in
  client_Get MemStore.cluster (GetName softReboot) noNode
  = (inr (MemStore.notFound "nodes"), noNode)
  /\ IsNotFound (MemStore.notFound "nodes") = true
  /\ result o = Some (0, Some (MemStore.notFound "nodes"))
  /\ result o <> Some (0, None).
Proof.
  repeat split. discriminate.
Qed.

Lemma ManageLease_extends_iff_expiring_early_witness :
  let w := at_ ours (t0 + 2 * Duration.Minute) in
  let o := run MemStore.cluster (ManageLease softReboot plain [softReboot]) w in
  storeWrites (trace o) = [EvRequestLease worker (11 * Duration.Minute)]
  /\ result o = Some (10 * Duration.Minute, None).
Proof.
  intros w o.
  destruct (ManageLease_extends_iff_expiring_early MemStore.cluster
              softReboot plain [softReboot]
              w w w (later w) (later (later w)) worker ours
              t0 t0 660
              (t0 + 2 * Duration.Minute)
              (t0 + 2 * Duration.Minute + Duration.Second))
    as [Hextend _].
  - reflexivity.
  - reflexivity.
  - discriminate.
  - reflexivity.
  - reflexivity.
  - reflexivity.
  - lia.
  - reflexivity.
  - vm_compute. discriminate.
  - reflexivity.
  - destruct Hextend as [Hwrites [_ Hresult]]; [reflexivity |].
    split; [exact Hwrites | exact Hresult].
Defined.

Lemma ManageLease_releases_foreign_lease_when_policy_has_steps_witness :
  let w := at_ foreign (t0 + 1) in
  let o := run MemStore.cluster (ManageLease softReboot escalating []) w in
  storeWrites (trace o) = [EvInvalidateLease worker]
  /\ MemStore.leases (final o) !! "worker-1"%string = None.
Proof.
  intros w o.
  destruct (ManageLease_releases_foreign_lease_when_policy_has_steps
              MemStore.cluster softReboot escalating
              w w w (later w) worker foreign t0 (t0 + 1))
    as [_ [_ [_ [Hwrites [_ Hfinal]]]]].
  - reflexivity.
  - reflexivity.
  - discriminate.
  - discriminate.
  - reflexivity.
  - reflexivity.
  - lia.
  - split; [exact Hwrites |]. fold o in Hfinal. rewrite Hfinal. reflexivity.
Defined.

Lemma ManageLease_nil_holder_is_not_owner_witness :
  let w := at_ unheld (t0 + 1) in
  let o := run MemStore.cluster (ManageLease softReboot plain []) w in
  isLeaseOwner unheld = false
  /\ ~ In (EvLog (LogInfo msgNoRemediations)) (trace o).
Proof.
  intros w o.
  destruct (ManageLease_nil_holder_is_not_owner MemStore.cluster
              softReboot plain w w w worker unheld eq_refl eq_refl eq_refl)
    as [Howner [Hlog _]].
  split; [exact Howner | exact Hlog].
Defined.

Lemma ManageLease_without_remediations_witness :
  let w := at_ ours (t0 + 1) in
  let o := run MemStore.cluster (ManageLease softReboot plain []) w in
  storeWrites (trace o) = [EvInvalidateLease worker]
  /\ result o = Some (0, None).
Proof.
  intros w o.
  destruct (proj1 (ManageLease_without_remediations MemStore.cluster
                     softReboot plain w w w worker ours eq_refl eq_refl)
              eq_refl) as [Hwrites [Hresult _]].
  split; [exact Hwrites | exact Hresult].
Defined.

(** C2, as stated, fails on a lease of another holder that is overdue: with
    no remediations left, thirty-one minutes after its acquisition, it is
    invalidated and gone from the store. *)
Lemma ManageLease_without_remediations_releases_foreign_lease :
  let w := at_ foreign (t0 + 31 * Duration.Minute) in
  let o := run MemStore.cluster (ManageLease softReboot plain []) w in
  MemStore.leases w !! "worker-1"%string = Some foreign
  /\ HolderIdentity (LSpec foreign) = Some "other-operator"%string
  /\ isLeaseOwner foreign = false
  /\ storeWrites (trace o) = [EvInvalidateLease worker]
  /\ MemStore.leases (final o) !! "worker-1"%string = None.
Proof.
  repeat split.
Qed.

(** * Further properties of the duration policy *)

Lemma substring_split (s : string) :
  forall n, (n <= String.length s)%nat ->
    s = String.append (substring 0 n s) (substring n (String.length s - n) s).
Proof.
  induction s as [|a s IH]; intros n Hn; simpl in *.
  - destruct n; reflexivity.
  - destruct n as [|n]; simpl.
    + now rewrite substring_all.
    + change (String a s = String a (String.append (substring 0 n s)
                (substring n (String.length s - n) s))).
      f_equal. apply IH. lia.
Qed.

Lemma HasSuffix_inv (s suffix : string) :
  HasSuffix s suffix = true ->
  s = String.append (TrimSuffix s suffix) suffix.
Proof.
  intros H. unfold TrimSuffix. rewrite H. unfold HasSuffix in H.
  apply andb_true_iff in H. destruct H as [Hlen Heq].
  apply Nat.leb_le in Hlen. apply String.eqb_eq in Heq.
  assert (Hle : (String.length s - String.length suffix <= String.length s)%nat)
    by lia.
  pose proof (substring_split s _ Hle) as Hsplit.
  replace (String.length s - (String.length s - String.length suffix))%nat
    with (String.length suffix) in Hsplit by lia.
  rewrite Heq in Hsplit. exact Hsplit.
Qed.

(** The kinds a step answers to: a remediation kind [k] is the kind of a
    step exactly when the step's template kind is [k] followed by
    "Template", or is [k] itself and does not end in "Template".  One suffix
    is removed, not more. *)
Theorem stepKind_iff :
  forall (es : EscalatingRemediation) (k : string),
    stepKind es = k
    <-> Kind (RemediationTemplate es) = String.append k "Template"
        \/ (Kind (RemediationTemplate es) = k /\ HasSuffix k "Template" = false).
Proof.
  intros es k. unfold stepKind. split.
  - intros Hk.
    destruct (HasSuffix (Kind (RemediationTemplate es)) "Template") eqn:Hs.
    + left. rewrite <- Hk. apply HasSuffix_inv. exact Hs.
    + right. unfold TrimSuffix in Hk. rewrite Hs in Hk. subst k.
      split; [reflexivity | exact Hs].
  - intros [Hk | [Hk Hs]].
    + rewrite Hk. apply TrimSuffix_append.
    + rewrite Hk. unfold TrimSuffix. rewrite Hs. reflexivity.
Qed.

Lemma getTimeoutLoop_cases (kind : string) (steps : list EscalatingRemediation) :
  getTimeoutLoop kind steps = 0
  \/ exists es, In es steps /\ stepKind es = kind
                /\ Timeout es = getTimeoutLoop kind steps.
Proof.
  induction steps as [|e steps IH]; simpl; [left; reflexivity |].
  fold (stepKind e).
  destruct (String.eqb_spec (stepKind e) kind) as [Heq | _].
  - right. exists e. repeat split; [left; reflexivity | exact Heq].
  - destruct IH as [H0 | [es [Hin [Hk Ht]]]]; [left; exact H0 |].
    right. exists es. repeat split; [right; exact Hin | exact Hk | exact Ht].
Qed.

(** The duration of a remediation is never zero: it is the default
    duration, or the non-zero timeout of a step of the policy that has the
    remediation's kind. *)
Theorem getLeaseDurationForRemediation_never_zero :
  forall (remediationCR : Unstructured) (nhc : NodeHealthCheck),
    getLeaseDurationForRemediation remediationCR nhc <> 0
    /\ (getLeaseDurationForRemediation remediationCR nhc = DefaultLeaseDuration
        \/ exists es, In es (policy nhc)
                      /\ stepKind es = GetKind remediationCR
                      /\ Timeout es
                         = getLeaseDurationForRemediation remediationCR nhc).
Proof.
  intros remediationCR nhc.
  unfold getLeaseDurationForRemediation, getTimeoutForRemediation.
  fold (policy nhc).
  destruct (Z.eqb_spec (getTimeoutLoop (GetKind remediationCR) (policy nhc)) 0)
    as [H0 | Hne]; simpl.
  - split; [discriminate | left; reflexivity].
  - split; [exact Hne |]. right.
    destruct (getTimeoutLoop_cases (GetKind remediationCR) (policy nhc))
      as [H0 | Hes]; [contradiction | exact Hes].
Qed.

Lemma maxFrom_Permutation (floor : Z) (ds ds' : list Z) :
  Permutation ds ds' -> maxFrom floor ds = maxFrom floor ds'.
Proof.
  induction 1 as [| x l l' _ IH | x y l | l l' l'' _ IH1 _ IH2]; simpl.
  - reflexivity.
  - now rewrite IH.
  - lia.
  - now rewrite IH1.
Qed.

Lemma maxFrom_app (floor : Z) (ds ds' : list Z) :
  maxFrom floor (ds ++ ds') = Z.max (maxFrom floor ds) (maxFrom floor ds').
Proof.
  pose proof (maxFrom_upper_bound floor ds') as [Hfloor _].
  induction ds as [|d ds IH]; simpl; [lia |].
  rewrite IH. lia.
Qed.

Lemma getLeaseDurationForRemediations_eq (nhc : NodeHealthCheck)
    (remediationCrs : list Unstructured) :
  getLeaseDurationForRemediations nhc remediationCrs
  = match policy nhc with
    | [] => DefaultLeaseDuration
    | _ :: _ => maxFrom 0 (durations nhc remediationCrs)
    end.
Proof.
  unfold getLeaseDurationForRemediations, policy.
  destruct (EscalatingRemediations (Spec nhc)); simpl;
    [reflexivity | apply highestLoop_maxFrom].
Qed.

(** The required duration does not depend on the order in which the
    remediations are given. *)
Theorem getLeaseDurationForRemediations_Permutation :
  forall (nhc : NodeHealthCheck) (remediationCrs remediationCrs' : list Unstructured),
    Permutation remediationCrs remediationCrs' ->
    getLeaseDurationForRemediations nhc remediationCrs
    = getLeaseDurationForRemediations nhc remediationCrs'.
Proof.
  intros nhc remediationCrs remediationCrs' Hperm.
  rewrite !getLeaseDurationForRemediations_eq.
  destruct (policy nhc); [reflexivity |].
  apply maxFrom_Permutation. unfold durations.
  apply Permutation_map. exact Hperm.
Qed.

(** The required duration is never negative, and that of two sets of
    remediations together is the greater of their required durations: more
    remediations never shorten it. *)
Theorem getLeaseDurationForRemediations_app :
  forall (nhc : NodeHealthCheck) (remediationCrs more : list Unstructured),
    0 <= getLeaseDurationForRemediations nhc remediationCrs
    /\ getLeaseDurationForRemediations nhc (remediationCrs ++ more)
       = Z.max (getLeaseDurationForRemediations nhc remediationCrs)
               (getLeaseDurationForRemediations nhc more)
    /\ getLeaseDurationForRemediations nhc remediationCrs
       <= getLeaseDurationForRemediations nhc (remediationCrs ++ more).
Proof.
  intros nhc remediationCrs more.
  rewrite !getLeaseDurationForRemediations_eq.
  destruct (policy nhc).
  - rewrite DefaultLeaseDuration_value. vm_compute. repeat split; discriminate.
  - unfold durations. rewrite map_app, maxFrom_app.
    pose proof (maxFrom_upper_bound 0
                  (map (fun cr => getLeaseDurationForRemediation cr nhc)
                       remediationCrs)) as [H0 _].
    repeat split; lia.
Qed.

Lemma getLeaseDurationForRemediations_Permutation_witness :
  getLeaseDurationForRemediations escalating [powerCycle; softReboot]
  = getLeaseDurationForRemediations escalating [softReboot; powerCycle].
Proof.
  apply getLeaseDurationForRemediations_Permutation. apply perm_swap.
Defined.

(** * Further properties of the lease manager *)

(** Case analysis over the answers of the cluster and over the tests of
    [ObtainNodeLease] and [ManageLease]. *)
Ltac cluster_cases c :=
  repeat (simpl;
    match goal with
    | |- context [client_Get c ?n ?w] =>
        destruct (client_Get c n w) as [[?node | ?err] ?w1] eqn:?Hnode
    | |- context [lease_GetLease c ?n ?w] =>
        destruct (lease_GetLease c n w) as [[?l | ?err] ?w2] eqn:?Hlease
    | |- context [time_Now c ?w] =>
        destruct (time_Now c w) as [?now ?w3] eqn:?Hnow
    | |- context [lease_RequestLease c ?n ?d ?w] =>
        destruct (lease_RequestLease c n d w) as [[?err |] ?w5] eqn:?Hrequest
    | |- context [lease_InvalidateLease c ?n ?w] =>
        destruct (lease_InvalidateLease c n w) as [[?err |] ?w4] eqn:?Hinvalidate
    | |- context [IsNotFound ?e] => destruct (IsNotFound e) eqn:?Hnotfound
    | |- context [isAlreadyHeldError ?e] =>
        destruct (isAlreadyHeldError e) eqn:?Hheld
    | |- context [isRemediationsExist ?r] =>
        destruct (isRemediationsExist r) eqn:?Hexist
    | |- context [isLeaseOwner ?l] => destruct (isLeaseOwner l) eqn:?Howner
    | |- context [AcquireTime ?s] => destruct (AcquireTime s) eqn:?Hacquire
    | |- context [RenewTime ?s] => destruct (RenewTime s) eqn:?Hrenew
    | |- context [LeaseDurationSeconds ?s] =>
        destruct (LeaseDurationSeconds s) eqn:?Hseconds
    | |- context [Time.After ?a ?b] => destruct (Time.After a b) eqn:?Hafter
    | |- context [Time.Before ?a ?b] => destruct (Time.Before a b) eqn:?Hbefore
    end).

Section ArbiterPaths.

Context {W : Type} (c : Cluster W).

(** A call of [ManageLease] writes to the lease store at most once, whatever
    the cluster answers. *)
Theorem ManageLease_at_most_one_write :
  forall (remediationCR : Unstructured) (nhc : NodeHealthCheck)
         (remediationCrs : list Unstructured) (w : W),
    (length (storeWrites
               (trace (run c (ManageLease remediationCR nhc remediationCrs) w)))
     <= 1)%nat.
Proof.
  intros remediationCR nhc remediationCrs w.
  unfold ManageLease, isLeaseOverdue, calcLeaseExpiration.
  cluster_cases c; simpl; lia.
Qed.

(** [ManageLease] returns a requeue time other than zero only without an
    error, and it is then the required duration of the remediations. *)
Theorem ManageLease_requeue_or_error :
  forall (remediationCR : Unstructured) (nhc : NodeHealthCheck)
         (remediationCrs : list Unstructured) (w : W) (requeue : Z)
         (err : option error),
    result (run c (ManageLease remediationCR nhc remediationCrs) w)
    = Some (requeue, err) ->
    requeue = 0
    \/ (requeue = getLeaseDurationForRemediations nhc remediationCrs
        /\ err = None).
Proof.
  intros remediationCR nhc remediationCrs w requeue err.
  unfold ManageLease, isLeaseOverdue, calcLeaseExpiration.
  cluster_cases c; simpl; intros [= <- <-]; auto.
Qed.

(** Whatever [ManageLease] writes to the lease store, it writes for the
    node that [client.Get] returned and after [GetLease] returned a lease
    for it: an invalidation, or a request for the required duration and the
    buffer. *)
Theorem ManageLease_writes_for_fetched_lease :
  forall (remediationCR : Unstructured) (nhc : NodeHealthCheck)
         (remediationCrs : list Unstructured) (w : W) (ev : Event),
    In ev (storeWrites
             (trace (run c (ManageLease remediationCR nhc remediationCrs) w))) ->
    exists node w1 l w2,
      client_Get c (GetName remediationCR) w = (inl node, w1)
      /\ lease_GetLease c node w1 = (inl l, w2)
      /\ (ev = EvInvalidateLease node
          \/ ev = EvRequestLease node
                    (Int64.add
                       (getLeaseDurationForRemediations nhc remediationCrs)
                       LeaseBuffer)).
Proof.
  intros remediationCR nhc remediationCrs w ev.
  unfold ManageLease, isLeaseOverdue, calcLeaseExpiration.
  cluster_cases c; simpl; try solve [intros []];
    intros [<- | []]; do 4 eexists;
    (split; [reflexivity | split; [eassumption | auto]]).
Qed.

(** [ObtainNodeLease] always returns.  The lease is obtained exactly when
    no error is returned, and the requeue time is then the duration of the
    remediation; with an error it is absent or [RequeueIfLeaseTaken].  The
    call writes to the store at most once, and neither reads, invalidates
    nor times a lease. *)
Theorem ObtainNodeLease_shape :
  forall (remediationCR : Unstructured) (nhc : NodeHealthCheck) (w : W),
    let o := run c (ObtainNodeLease remediationCR nhc) w in
    (exists obtained requeue err,
        result o = Some (obtained, requeue, err)
        /\ (obtained = true <-> err = None)
        /\ (obtained = true ->
            requeue = Some (getLeaseDurationForRemediation remediationCR nhc))
        /\ (obtained = false ->
            requeue = None \/ requeue = Some RequeueIfLeaseTaken))
    /\ (length (storeWrites (trace o)) <= 1)%nat
    /\ (forall ev, In ev (trace o) ->
                   match ev with
                   | EvGetLease _ | EvInvalidateLease _ | EvNow => False
                   | _ => True
                   end).
Proof.
  intros remediationCR nhc w o. subst o. unfold ObtainNodeLease.
  cluster_cases c; simpl;
    (split; [| split; [lia | intuition (subst; exact I)]]);
    do 3 eexists; (split; [reflexivity |]);
    (split; [split; congruence | split; [congruence | auto; discriminate]]).
Qed.

Lemma isRemediationsExist_false (remediationCrs : list Unstructured) :
  isRemediationsExist remediationCrs = false <-> remediationCrs = [].
Proof. destruct remediationCrs; split; (reflexivity || discriminate). Qed.

(** [ManageLease] panics in one situation only: the lease is fetched, it is
    not released for want of remediations, it has an acquire time and is not
    overdue, and its renew time or its duration is nil.  (The code
    dereferences both to compute the actual expiry.) *)
Theorem ManageLease_panics_iff :
  forall (remediationCR : Unstructured) (nhc : NodeHealthCheck)
         (remediationCrs : list Unstructured) (w : W),
    result (run c (ManageLease remediationCR nhc remediationCrs) w) = None
    <-> exists node w1 l w2 acquireTime now w3,
          client_Get c (GetName remediationCR) w = (inl node, w1)
          /\ lease_GetLease c node w1 = (inl l, w2)
          /\ (remediationCrs <> [] \/ isLeaseOwner l = false)
          /\ AcquireTime (LSpec l) = Some acquireTime
          /\ time_Now c w2 = (now, w3)
          /\ now <= acquireTime
                    + Int64.mul 3
                        (getLeaseDurationForRemediations nhc remediationCrs)
          /\ (RenewTime (LSpec l) = None
              \/ LeaseDurationSeconds (LSpec l) = None).
Proof.
  intros remediationCR nhc remediationCrs w. split.
  - unfold ManageLease, isLeaseOverdue, calcLeaseExpiration.
    cluster_cases c; simpl; try discriminate; intros _;
      unfold Time.After, Time.Add in Hafter;
      change (Int64.add maxTimesToExtendLease 1) with 3 in Hafter;
      apply Z.ltb_ge in Hafter;
      do 7 eexists;
      (split; [reflexivity |]); (split; [eassumption |]);
      (split; [first [ right; eassumption
                     | left; intros Hnil;
                       apply isRemediationsExist_false in Hnil; congruence ] |]);
      (split; [eassumption |]); (split; [eassumption |]);
      (split; [exact Hafter |]); auto.
  - intros (node & w1 & l & w2 & acquireTime & now & w3
            & Hnode & Hlease & Hguard & Hacq & Hnow & Hearly & Hnil).
    assert (Hg : negb (isRemediationsExist remediationCrs) && isLeaseOwner l
                 = false).
    { destruct Hguard as [Hrems | Howner].
      - destruct remediationCrs; [contradiction | reflexivity].
      - rewrite Howner. apply andb_false_r. }
    unfold ManageLease, isLeaseOverdue, calcLeaseExpiration. simpl.
    rewrite Hnode. simpl. rewrite Hlease. simpl. rewrite Hg, Hacq. simpl.
    rewrite Hnow. simpl. unfold Time.After, Time.Add.
    change (Int64.add maxTimesToExtendLease 1) with 3.
    apply Z.ltb_ge in Hearly. rewrite Hearly. simpl.
    destruct (time_Now c w3) as [now' w4]. simpl.
    destruct (RenewTime (LSpec l)) as [renewTime |]; [| reflexivity].
    destruct Hnil as [Hnil | Hnil]; [discriminate |].
    rewrite Hnil. reflexivity.
Qed.

(** The overdue check is monotone in the clock: a lease found overdue at one
    reading of the clock is found overdue at every later reading. *)
Theorem isLeaseOverdue_later :
  forall (l : Lease) (nhc : NodeHealthCheck) (remediationCrs : list Unstructured)
         (w w' : W),
    fst (time_Now c w) <= fst (time_Now c w') ->
    result (run c (isLeaseOverdue l nhc remediationCrs) w) = Some (true, None) ->
    result (run c (isLeaseOverdue l nhc remediationCrs) w') = Some (true, None).
Proof.
  intros l nhc remediationCrs w w'.
  unfold isLeaseOverdue, calcLeaseExpiration.
  destruct (AcquireTime (LSpec l)) as [acquireTime |]; simpl; [| discriminate].
  destruct (time_Now c w) as [now w3], (time_Now c w') as [now' w3']. simpl.
  unfold Time.After. intros Hle [= Hlate]. apply Z.ltb_lt in Hlate.
  do 2 f_equal. apply Z.ltb_lt. lia.
Qed.

Lemma getLeaseDurationForRemediations_le_app (nhc : NodeHealthCheck)
    (remediationCrs more : list Unstructured) :
  0 <= getLeaseDurationForRemediations nhc remediationCrs
  /\ getLeaseDurationForRemediations nhc remediationCrs
     <= getLeaseDurationForRemediations nhc (remediationCrs ++ more).
Proof.
  rewrite !getLeaseDurationForRemediations_eq.
  destruct (policy nhc).
  - rewrite DefaultLeaseDuration_value. vm_compute. split; discriminate.
  - unfold durations. rewrite map_app, maxFrom_app.
    pose proof (maxFrom_upper_bound 0
                  (map (fun cr => getLeaseDurationForRemediation cr nhc)
                       remediationCrs)) as [H0 _].
    split; lia.
Qed.

(** More remediations can only postpone the overdue verdict: a lease that is
    overdue for a set of remediations and more is overdue for the set alone,
    at the same reading of the clock, as long as three times the longer
    required duration fits a Duration. *)
Theorem isLeaseOverdue_fewer_remediations :
  forall (l : Lease) (nhc : NodeHealthCheck)
         (remediationCrs more : list Unstructured) (w : W),
    Int64.in_range
      (3 * getLeaseDurationForRemediations nhc (remediationCrs ++ more)) ->
    result (run c (isLeaseOverdue l nhc (remediationCrs ++ more)) w)
    = Some (true, None) ->
    result (run c (isLeaseOverdue l nhc remediationCrs) w) = Some (true, None).
Proof.
  intros l nhc remediationCrs more w Hrange.
  destruct (getLeaseDurationForRemediations_le_app nhc remediationCrs more)
    as [H0 Hle].
  unfold isLeaseOverdue, calcLeaseExpiration.
  destruct (AcquireTime (LSpec l)) as [acquireTime |]; simpl; [| discriminate].
  destruct (time_Now c w) as [now w3]. simpl.
  unfold Time.After, Time.Add.
  change (Int64.add maxTimesToExtendLease 1) with 3.
  unfold Int64.mul. rewrite (wrap_in_range _ Hrange).
  rewrite wrap_in_range.
  - intros [= Hlate]. apply Z.ltb_lt in Hlate.
    do 2 f_equal. apply Z.ltb_lt. lia.
  - unfold Int64.in_range, Int64.min_int, Int64.max_int in *. lia.
Qed.

(** The buffer at work.  A lease that is not overdue and whose duration is
    the required duration and the buffer, as [ObtainNodeLease] and the
    extension request it, is left alone by [ManageLease] as long as the clock
    is within [LeaseBuffer] of its renew time, and requested again after. *)
Theorem ManageLease_extends_after_buffer :
  forall (remediationCR : Unstructured) (nhc : NodeHealthCheck)
         (remediationCrs : list Unstructured)
         (w w1 w2 w3 w4 : W) (node : Node) (l : Lease)
         (acquireTime renewTime seconds now now' : Z),
    client_Get c (GetName remediationCR) w = (inl node, w1) ->
    lease_GetLease c node w1 = (inl l, w2) ->
    remediationCrs <> [] ->
    AcquireTime (LSpec l) = Some acquireTime ->
    RenewTime (LSpec l) = Some renewTime ->
    LeaseDurationSeconds (LSpec l) = Some seconds ->
    - 2 ^ 31 <= seconds < 2 ^ 31 ->
    seconds * Duration.Second
    = getLeaseDurationForRemediations nhc remediationCrs + LeaseBuffer ->
    time_Now c w2 = (now, w3) ->
    now <= acquireTime
           + Int64.mul 3 (getLeaseDurationForRemediations nhc remediationCrs) ->
    time_Now c w3 = (now', w4) ->
    storeWrites (trace (run c (ManageLease remediationCR nhc remediationCrs) w))
    = [] <-> now' <= renewTime + LeaseBuffer.
Proof.
  intros remediationCR nhc remediationCrs w w1 w2 w3 w4 node l
         acquireTime renewTime seconds now now'
         Hnode Hlease Hrems Hacq Hrenew Hsecs Hint32 Httl Hnow Hearly Hnow'.
  assert (Hguard : negb (isRemediationsExist remediationCrs) && isLeaseOwner l
                   = false).
  { destruct remediationCrs; [contradiction | reflexivity]. }
  rewrite (ManageLease_kept c remediationCR nhc remediationCrs w w1 w2 node l
             Hnode Hlease acquireTime now w3 renewTime seconds now' w4
             Hguard Hacq Hnow Hearly Hrenew Hsecs Hnow').
  cbv zeta. rewrite (mul_Second_int32 _ Hint32), Httl.
  destruct (Z.ltb_spec
              (renewTime
               + (getLeaseDurationForRemediations nhc remediationCrs + LeaseBuffer))
              (now' + getLeaseDurationForRemediations nhc remediationCrs))
    as [Hlt | Hge].
  - destruct (lease_RequestLease c node _ w4) as [[err |] w5]; simpl;
      split; (discriminate || lia).
  - simpl. split; [lia | reflexivity].
Qed.

(** When [ManageLease] invalidates.  [InvalidateLease] is called exactly
    when the lease is fetched and either no remediation is left and the
    lease is this process's own, or the lease has an acquire time that the
    clock has passed by three required durations.  A lease with remediations
    that is not overdue is never invalidated. *)
Theorem ManageLease_invalidates_iff :
  forall (remediationCR : Unstructured) (nhc : NodeHealthCheck)
         (remediationCrs : list Unstructured) (w : W),
    (exists n,
        In (EvInvalidateLease n)
           (trace (run c (ManageLease remediationCR nhc remediationCrs) w)))
    <-> exists node w1 l w2,
          client_Get c (GetName remediationCR) w = (inl node, w1)
          /\ lease_GetLease c node w1 = (inl l, w2)
          /\ ((remediationCrs = [] /\ isLeaseOwner l = true)
              \/ exists acquireTime,
                   AcquireTime (LSpec l) = Some acquireTime
                   /\ acquireTime
                      + Int64.mul 3
                          (getLeaseDurationForRemediations nhc remediationCrs)
                      < fst (time_Now c w2)).
Proof.
  intros remediationCR nhc remediationCrs w. split.
  - unfold ManageLease, isLeaseOverdue, calcLeaseExpiration.
    cluster_cases c; simpl; intros [n Hin];
      try solve [exfalso; intuition discriminate];
      do 4 eexists; (split; [reflexivity |]); (split; [eassumption |]);
      first [ left; split;
              [apply isRemediationsExist_false; assumption | assumption]
            | right; eexists; split; [eassumption |];
              rewrite Hnow; simpl;
              unfold Time.After, Time.Add in Hafter;
              change (Int64.add maxTimesToExtendLease 1) with 3 in Hafter;
              apply Z.ltb_lt in Hafter; exact Hafter ].
  - intros (node & w1 & l & w2 & Hnode & Hlease & Hwhy).
    destruct (negb (isRemediationsExist remediationCrs) && isLeaseOwner l)
      eqn:Hguard.
    + destruct (lease_InvalidateLease c node w2) as [err w3] eqn:Hinv.
      rewrite (ManageLease_released_without_remediations c remediationCR nhc
                 remediationCrs w w1 w2 node l Hnode Hlease err w3 Hguard Hinv).
      exists node. simpl. tauto.
    + destruct Hwhy as [[Hrems Howner] | [acquireTime [Hacq Hlate]]].
      * rewrite Hrems, Howner in Hguard. discriminate.
      * destruct (time_Now c w2) as [now w3] eqn:Hnow. simpl in Hlate.
        destruct (lease_InvalidateLease c node w3) as [err w4] eqn:Hinv.
        rewrite (ManageLease_released_overdue c remediationCR nhc
                   remediationCrs w w1 w2 node l Hnode Hlease
                   acquireTime now w3 err w4 Hguard Hacq Hnow Hlate Hinv).
        exists node. simpl. tauto.
Qed.

End ArbiterPaths.

(** * logManageLeaseChanges *)

(** [logManageLeaseChanges] logs at most one entry, and none exactly when
    neither the requeue time nor the error changed and the reconcile did not
    end without error and with a zero requeue time. *)
Theorem logManageLeaseChanges_silent_iff :
  forall (differ : option error -> option error -> bool)
         (originalRequeue updatedRequeue : Z)
         (originalErr updatedErr : option error),
    let entries :=
      logManageLeaseChanges differ originalRequeue updatedRequeue
        originalErr updatedErr in
    (length entries <= 1)%nat
    /\ (entries = []
        <-> originalRequeue = updatedRequeue
            /\ differ originalErr updatedErr = false
            /\ (updatedErr <> None \/ updatedRequeue <> 0)).
Proof.
  intros differ originalRequeue updatedRequeue originalErr updatedErr entries.
  subst entries. unfold logManageLeaseChanges.
  destruct (Z.eqb_spec originalRequeue updatedRequeue) as [Hr | Hr];
    destruct (differ originalErr updatedErr); simpl;
    try (split; [lia | split; [discriminate | intros [? [? ?]]; congruence]]).
  destruct updatedErr as [e |]; simpl.
  - split; [lia |]. split; [| reflexivity].
    intros _. repeat split; [exact Hr | left; discriminate].
  - destruct (Z.eqb_spec updatedRequeue 0) as [H0 | H0]; simpl.
    + split; [lia |]. split; [discriminate |].
      intros [_ [_ [H | H]]]; contradiction.
    + split; [lia |]. split; [| reflexivity].
      intros _. repeat split; [exact Hr | right; exact H0].
Qed.

(** * The MachineHealthCheck conflict checker *)

Lemma mhcStatus_eqb_eq (a b : mhc.mhcStatus) :
  mhc.mhcStatus_eqb a b = true <-> a = b.
Proof. destruct a, b; simpl; split; (reflexivity || discriminate). Qed.

Lemma terminationHandler_dec (m : mhc.MachineHealthCheck) :
  ((length (mhc.UnhealthyConditions m) =? 1)%nat
   && match mhc.UnhealthyConditions m with
      | [] => false
      | uc :: _ => String.eqb (mhc.UCType uc) mhc.NodeConditionTerminating
      end) = true
  <-> terminationHandler m.
Proof.
  unfold terminationHandler.
  destruct (mhc.UnhealthyConditions m) as [|uc [|uc' rest]]; simpl.
  - split; [discriminate | intros [uc [H _]]; discriminate].
  - rewrite String.eqb_eq. split.
    + intros H. exists uc. split; [reflexivity | exact H].
    + intros [uc0 [[= <-] H]]. exact H.
  - split; [discriminate | intros [uc0 [H _]]; discriminate].
Qed.

Lemma UpdateStatus_listed (items : list mhc.MachineHealthCheck) (c : mhc.checker) :
  mhc.returned (mhc.UpdateStatus (inl items) c) = None
  /\ mhc.mhcRunning (mhc.self (mhc.UpdateStatus (inl items) c)) = mhc.mhcRunning c
  /\ ((items = [] /\ mhc.status (mhc.self (mhc.UpdateStatus (inl items) c))
                     = mhc.noMHC)
      \/ ((exists m, items = [m] /\ terminationHandler m)
          /\ mhc.status (mhc.self (mhc.UpdateStatus (inl items) c))
             = mhc.terminationMHCOnly)
      \/ (items <> [] /\ (~ exists m, items = [m] /\ terminationHandler m)
          /\ mhc.status (mhc.self (mhc.UpdateStatus (inl items) c))
             = mhc.customMHC)).
Proof.
  unfold mhc.UpdateStatus.
  destruct items as [|m [|m' rest]]; simpl.
  - split; [reflexivity |]. split; [reflexivity |]. left. split; reflexivity.
  - pose proof (terminationHandler_dec m) as Hdec.
    destruct ((length (mhc.UnhealthyConditions m) =? 1)%nat && _) eqn:Hterm.
    + assert (Hth : terminationHandler m) by (apply Hdec; reflexivity).
      assert (Hex : exists m0, [m] = [m0] /\ terminationHandler m0).
      { exists m. split; [reflexivity | exact Hth]. }
      destruct (mhc.mhcStatus_eqb (mhc.status c) mhc.terminationMHCOnly)
        eqn:Hst; simpl.
      * apply mhcStatus_eqb_eq in Hst.
        split; [reflexivity |]. split; [reflexivity |]. right. left.
        split; [exact Hex | exact Hst].
      * split; [reflexivity |]. split; [reflexivity |]. right. left.
        split; [exact Hex | reflexivity].
    + assert (Hth : ~ terminationHandler m).
      { intros H. apply Hdec in H. discriminate. }
      simpl. split; [reflexivity |]. split; [reflexivity |]. right. right.
      split; [discriminate |]. split; [| reflexivity].
      intros [m0 [[= <-] H]]. contradiction.
  - split; [reflexivity |]. split; [reflexivity |]. right. right.
    split; [discriminate |]. split; [| reflexivity].
    intros [m0 [H _]]. discriminate.
Qed.

(** After a listing that succeeds, the status of the checker is decided by
    the list alone, whatever it was before, and is never unknown: no MHC for
    an empty list, termination-only for a single MHC with the single
    unhealthy condition Terminating, custom for anything else. *)
Theorem UpdateStatus_decided_by_list :
  forall (items : list mhc.MachineHealthCheck) (c : mhc.checker),
    let d := mhc.UpdateStatus (inl items) c in
    mhc.returned d = None
    /\ mhc.status (mhc.self d) <> mhc.unknown
    /\ (mhc.status (mhc.self d) = mhc.noMHC <-> items = [])
    /\ (mhc.status (mhc.self d) = mhc.terminationMHCOnly
        <-> exists m, items = [m] /\ terminationHandler m)
    /\ (mhc.status (mhc.self d) = mhc.customMHC
        <-> items <> [] /\ ~ exists m, items = [m] /\ terminationHandler m).
Proof.
  intros items c d. subst d.
  destruct (UpdateStatus_listed items c)
    as [Hret [_ [[Hnil Hst] | [[Hone Hst] | [Hne [Hnone Hst]]]]]];
    rewrite Hst; (split; [exact Hret |]); (split; [discriminate |]).
  - split; [split; [intros _; exact Hnil | reflexivity] |].
    split; (split; [discriminate |]).
    + intros [m [H _]]. rewrite Hnil in H. discriminate.
    + intros [H _]. contradiction.
  - destruct Hone as [m [Hm Hth]].
    split; [split; [discriminate | intros H; rewrite H in Hm; discriminate] |].
    split.
    + split; [intros _; exists m; split; assumption | reflexivity].
    + split; [discriminate |]. intros [_ Hno]. exfalso. apply Hno.
      exists m. split; assumption.
  - split; [split; [discriminate | intros H; contradiction] |].
    split.
    + split; [discriminate | intros H; contradiction].
    + split; [intros _; split; assumption | reflexivity].
Qed.

(** [UpdateStatus] logs once only: an entry is logged exactly when the
    status changes, never more than one, and a second listing with the same
    answer logs nothing and leaves the checker as it is. *)
Theorem UpdateStatus_logs_once :
  forall (items : list mhc.MachineHealthCheck) (c : mhc.checker),
    let d := mhc.UpdateStatus (inl items) c in
    (length (mhc.logged d) <= 1)%nat
    /\ (mhc.logged d = [] <-> mhc.status (mhc.self d) = mhc.status c)
    /\ mhc.logged (mhc.UpdateStatus (inl items) (mhc.self d)) = []
    /\ mhc.self (mhc.UpdateStatus (inl items) (mhc.self d)) = mhc.self d.
Proof.
  intros items [st running] d. subst d. unfold mhc.UpdateStatus.
  destruct items as [|m [|m' rest]]; simpl.
  - destruct st; simpl; (split; [lia |]);
      (split; [split; (discriminate || reflexivity) |]); split; reflexivity.
  - destruct ((length (mhc.UnhealthyConditions m) =? 1)%nat && _);
      destruct st; simpl; (split; [lia |]);
      (split; [split; (discriminate || reflexivity) |]); split; reflexivity.
  - destruct st; simpl; (split; [lia |]);
      (split; [split; (discriminate || reflexivity) |]); split; reflexivity.
Qed.

Lemma ignoreLoop_spec (conds : list mhc.NodeCondition) :
  (fst (mhc.ignoreLoop conds) = true
   <-> exists cond, In cond conds
                    /\ mhc.CondType cond = mhc.NodeConditionTerminating)
  /\ snd (mhc.ignoreLoop conds)
     = if fst (mhc.ignoreLoop conds) then [LogInfo mhc.msgIgnoring] else [].
Proof.
  induction conds as [|cond rest [IHiff IHlog]]; simpl.
  - split; [| reflexivity]. split; [discriminate | intros [cond [[] _]]].
  - destruct (String.eqb_spec (mhc.CondType cond) mhc.NodeConditionTerminating)
      as [Heq | Hne]; simpl.
    + split; [| reflexivity]. split; [| reflexivity].
      intros _. exists cond. split; [left; reflexivity | exact Heq].
    + split; [| exact IHlog]. rewrite IHiff. split.
      * intros [cond' [Hin Ht]]. exists cond'. split; [right; exact Hin | exact Ht].
      * intros [cond' [[<- | Hin] Ht]]; [contradiction |].
        exists cond'. split; assumption.
Qed.

(** [NeedIgnoreNode] answers true exactly for a node with a condition of
    type Terminating, unless the status of the checker is no-MHC; in
    particular such a node is ignored while the status is still unknown.
    One entry is logged with a true answer, none with a false one. *)
Theorem NeedIgnoreNode_iff :
  forall (c : mhc.checker) (node : mhc.Node),
    (fst (mhc.NeedIgnoreNode c node) = true
     <-> mhc.status c <> mhc.noMHC /\ terminating node)
    /\ snd (mhc.NeedIgnoreNode c node)
       = if fst (mhc.NeedIgnoreNode c node)
         then [LogInfo mhc.msgIgnoring] else [].
Proof.
  intros c node. unfold mhc.NeedIgnoreNode, terminating.
  destruct (ignoreLoop_spec (mhc.Conditions node)) as [Hiff Hlog].
  destruct (mhc.mhcStatus_eqb (mhc.status c) mhc.noMHC) eqn:Hst; simpl.
  - apply mhcStatus_eqb_eq in Hst. split; [| reflexivity].
    split; [discriminate | intros [Hne _]; contradiction].
  - split; [| exact Hlog]. rewrite Hiff. split.
    + intros H. split; [| exact H].
      intros Heq. apply mhcStatus_eqb_eq in Heq. congruence.
    + intros [_ H]. exact H.
Qed.

(** The gate after a listing.  Once [UpdateStatus] has listed the
    MachineHealthChecks, [NeedDisableNHC] holds exactly when there is an MHC
    other than a lone termination handler, and [NeedIgnoreNode] holds exactly
    for the terminating nodes when there is any MHC at all.  A listing that
    fails changes neither answer. *)
Theorem gate_after_UpdateStatus :
  forall (items : list mhc.MachineHealthCheck) (c : mhc.checker)
         (node : mhc.Node) (err : error),
    let c' := mhc.self (mhc.UpdateStatus (inl items) c) in
    (mhc.NeedDisableNHC c' = true
     <-> items <> [] /\ ~ exists m, items = [m] /\ terminationHandler m)
    /\ (fst (mhc.NeedIgnoreNode c' node) = true
        <-> items <> [] /\ terminating node)
    /\ mhc.NeedDisableNHC (mhc.self (mhc.UpdateStatus (inr err) c))
       = mhc.NeedDisableNHC c
    /\ mhc.NeedIgnoreNode (mhc.self (mhc.UpdateStatus (inr err) c)) node
       = mhc.NeedIgnoreNode c node.
Proof.
  intros items c node err c'.
  split; [| split; [| split; reflexivity]].
  - unfold mhc.NeedDisableNHC.
    destruct (UpdateStatus_listed items c)
      as [_ [_ [[Hnil Hst] | [[Hone Hst] | [Hne [Hnone Hst]]]]]];
      fold c' in Hst; rewrite Hst.
    + split; [discriminate | intros [H _]; contradiction].
    + split; [discriminate | intros [_ H]; contradiction].
    + split; [intros _; split; assumption | reflexivity].
  - unfold mhc.NeedIgnoreNode, terminating.
    destruct (ignoreLoop_spec (mhc.Conditions node)) as [Hiff _].
    destruct (UpdateStatus_listed items c)
      as [_ [_ [[Hnil Hst] | [[Hone Hst] | [Hne [Hnone Hst]]]]]];
      fold c' in Hst; rewrite Hst; simpl.
    + split; [discriminate | intros [H _]; contradiction].
    + rewrite Hiff. destruct Hone as [m [Hm _]].
      split; [intros H; split; [rewrite Hm; discriminate | exact H]
             | intros [_ H]; exact H].
    + rewrite Hiff.
      split; [intros H; split; assumption | intros [_ H]; exact H].
Qed.

(** * Conditions *)

(** [IsConditionTrue] looks at the first condition of the given type only:
    it holds exactly when that condition has status True and the given
    reason.  A later condition of the same type does not count. *)
Theorem IsConditionTrue_iff :
  forall (conditions : list utils.Condition) (conditionType reason : string),
    utils.IsConditionTrue conditions conditionType reason = true
    <-> exists before condition rest,
          conditions = before ++ condition :: rest
          /\ (forall c, In c before -> utils.Type_ c <> conditionType)
          /\ utils.Type_ condition = conditionType
          /\ utils.Status condition = utils.ConditionTrue
          /\ utils.Reason condition = reason.
Proof.
  intros conditions conditionType reason. unfold utils.IsConditionTrue.
  induction conditions as [|c conditions IH]; simpl.
  - split; [discriminate |].
    intros [before [condition [rest [H _]]]]. destruct before; discriminate.
  - destruct (String.eqb_spec (utils.Type_ c) conditionType) as [Heq | Hne].
    + destruct (String.eqb_spec (utils.Status c) utils.ConditionTrue)
        as [Hs | Hs]; simpl;
        [destruct (String.eqb_spec (utils.Reason c) reason) as [Hr | Hr];
         simpl |].
      * split; [| reflexivity]. intros _. exists [], c, conditions.
        repeat split; try assumption. intros c0 [].
      * split; [discriminate |].
        intros [[|b before] [condition [rest [Hc [Hbefore [_ [_ Hreason]]]]]]];
          simpl in Hc; injection Hc as <- _.
        -- contradiction.
        -- destruct (Hbefore c); [left; reflexivity | exact Heq].
      * split; [discriminate |].
        intros [[|b before] [condition [rest [Hc [Hbefore [_ [Hstatus _]]]]]]];
          simpl in Hc; injection Hc as <- _.
        -- contradiction.
        -- destruct (Hbefore c); [left; reflexivity | exact Heq].
    + rewrite IH. split.
      * intros [before [condition [rest [Hc [Hbefore Hrest]]]]].
        exists (c :: before), condition, rest. split; [simpl; now rewrite Hc |].
        split; [| exact Hrest].
        intros c0 [<- | Hin]; [exact Hne | apply Hbefore, Hin].
      * intros [[|b before] [condition [rest [Hc [Hbefore Hrest]]]]];
          simpl in Hc; injection Hc as <- Hc.
        -- destruct Hrest as [Ht _]. contradiction.
        -- exists before, condition, rest. split; [exact Hc |].
           split; [| exact Hrest]. intros c0 Hin. apply Hbefore. right. exact Hin.
Qed.

(** * The template lookup of the end-to-end test *)

(** [getTemplateNS] returns, without error, the namespace of the first
    listed template that has the default template's name; it fails with the
    not-found error exactly when the listing succeeds and has no template of
    that name, and with the listing's error when the listing fails. *)
Theorem getTemplateNS_first_match :
  forall (items : list e2e.Template),
    (forall ns,
        e2e.getTemplateNS (inl items) = (ns, None)
        <-> exists before t rest,
              items = before ++ t :: rest
              /\ (forall t', In t' before ->
                             e2e.TemplateName t' <> e2e.defaultTemplateName)
              /\ e2e.TemplateName t = e2e.defaultTemplateName
              /\ e2e.TemplateNamespace t = ns)
    /\ (e2e.getTemplateNS (inl items) = (EmptyString, Some e2e.templateNotFound)
        <-> forall t, In t items ->
                      e2e.TemplateName t <> e2e.defaultTemplateName)
    /\ (forall err, e2e.getTemplateNS (inr err) = (EmptyString, Some err)).
Proof.
  intros items. simpl. split; [| split; [| reflexivity]].
  - induction items as [|t items IH]; intros ns; simpl.
    + split; [discriminate |].
      intros [before [t [rest [H _]]]]. destruct before; discriminate.
    + destruct (String.eqb_spec (e2e.TemplateName t) e2e.defaultTemplateName)
        as [Heq | Hne].
      * split.
        -- intros [= <-]. exists [], t, items.
           repeat split; [intros t' [] | exact Heq].
        -- intros [[|b before] [t0 [rest [Hc [Hbefore [_ Hns]]]]]];
             simpl in Hc; injection Hc as <- _.
           ++ now rewrite Hns.
           ++ destruct (Hbefore t); [left; reflexivity | exact Heq].
      * rewrite IH. split.
        -- intros [before [t0 [rest [Hc [Hbefore Hrest]]]]].
           exists (t :: before), t0, rest. split; [simpl; now rewrite Hc |].
           split; [| exact Hrest].
           intros t' [<- | Hin]; [exact Hne | apply Hbefore, Hin].
        -- intros [[|b before] [t0 [rest [Hc [Hbefore Hrest]]]]];
             simpl in Hc; injection Hc as <- Hc.
           ++ destruct Hrest as [Ht _]. contradiction.
           ++ exists before, t0, rest. split; [exact Hc |].
              split; [| exact Hrest].
              intros t' Hin. apply Hbefore. right. exact Hin.
  - induction items as [|t items IH]; simpl.
    + split; [intros _ t [] | reflexivity].
    + destruct (String.eqb_spec (e2e.TemplateName t) e2e.defaultTemplateName)
        as [Heq | Hne].
      * split; [discriminate |].
        intros H. destruct (H t); [left; reflexivity | exact Heq].
      * rewrite IH. split.
        -- intros H t' [<- | Hin]; [exact Hne | apply H, Hin].
        -- intros H t' Hin. apply H. right. exact Hin.
Qed.

(** * The further properties on the scenarios *)

Lemma ManageLease_requeue_or_error_witness :
  10 * Duration.Minute = 0
  \/ (10 * Duration.Minute
      = getLeaseDurationForRemediations plain [softReboot]
      /\ @None error = None).
Proof.
  apply (ManageLease_requeue_or_error MemStore.cluster softReboot plain
           [softReboot] (at_ ours (t0 + 1))).
  reflexivity.
Defined.

Lemma ManageLease_writes_for_fetched_lease_witness :
  let w := at_ ours (t0 + 2 * Duration.Minute) in
  exists node w1 l w2,
    client_Get MemStore.cluster (GetName softReboot) w = (inl node, w1)
    /\ lease_GetLease MemStore.cluster node w1 = (inl l, w2)
    /\ (EvRequestLease worker (11 * Duration.Minute) = EvInvalidateLease node
        \/ EvRequestLease worker (11 * Duration.Minute)
           = EvRequestLease node
               (Int64.add (getLeaseDurationForRemediations plain [softReboot])
                  LeaseBuffer)).
Proof.
  intros w.
  apply (ManageLease_writes_for_fetched_lease MemStore.cluster softReboot plain
           [softReboot] w).
  left. reflexivity.
Defined.

Lemma isLeaseOverdue_later_witness :
  result (run MemStore.cluster (isLeaseOverdue ours plain [softReboot])
            (at_ ours (t0 + 31 * Duration.Minute)))
  = Some (true, None).
Proof.
  apply (isLeaseOverdue_later MemStore.cluster ours plain [softReboot]
           (at_ ours (t0 + 30 * Duration.Minute + 1))).
  - vm_compute. discriminate.
  - reflexivity.
Defined.

Lemma isLeaseOverdue_fewer_remediations_witness :
  result (run MemStore.cluster (isLeaseOverdue ours escalating [softReboot])
            (at_ ours (t0 + 61 * Duration.Minute)))
  = Some (true, None).
Proof.
  apply (isLeaseOverdue_fewer_remediations MemStore.cluster ours escalating
           [softReboot] [powerCycle]).
  - vm_compute. split; discriminate.
  - reflexivity.
Defined.

Lemma ManageLease_extends_after_buffer_witness :
  storeWrites
    (trace (run MemStore.cluster (ManageLease softReboot plain [softReboot])
              (at_ ours (t0 + 30 * Duration.Second))))
  = [].
Proof.
  pose (w := at_ ours (t0 + 30 * Duration.Second)).
  apply (proj2 (ManageLease_extends_after_buffer MemStore.cluster
                  softReboot plain [softReboot]
                  w w w (later w) (later (later w)) worker ours
                  t0 t0 660
                  (t0 + 30 * Duration.Second)
                  (t0 + 31 * Duration.Second)
                  eq_refl eq_refl ltac:(discriminate) eq_refl eq_refl eq_refl
                  ltac:(lia) eq_refl eq_refl
                  ltac:(vm_compute; discriminate) eq_refl)).
  vm_compute. discriminate.
Defined.
